(** * Approval tracking and messaging of the portal: a shallow embedding

  The development follows [src/pages/Dashboard.tsx] (toast
  de-duplication and the periodic application-status check) and
  [src/pages/Messages.tsx] (counterpart lookup, message fetch, realtime
  subscription and send).

  React state is a record, a state setter is a record update, and every
  observable call ([toast.*], [navigate], [console.error], an insert or an
  upload) is appended to a log of effects.  An [async] function is cut at
  its [await]s: the code that runs after an [await] is a function of the
  reply, and the whole function is the composition of these pieces.  The
  Supabase backend is a record of tables queried by pure functions; a
  transport fault of a call is an explicit argument. *)

From Stdlib Require Import ZArith Lia Ascii String.
From stdpp Require Import base numbers option list sets gmap strings sorting.

Local Open Scope string_scope.
Local Open Scope Z_scope.
#[local] Set Warnings "-clear-no-such-hyp".

(** ** JavaScript values used by the pages *)
Module Js.

(** [s || null] on a nullable string: [null], [undefined] and the empty
    string are falsy. *)
Definition or_null (s : option string) : option string :=
  match s with
  | Some v => if decide (v = "") then None else Some v
  | None => None
  end.

(** [a || b] where [b] is a string. *)
Definition or_else (a : option string) (b : string) : string :=
  match or_null a with
  | Some v => v
  | None => b
  end.

(** [!!x] on an object reference or [null]. *)
Definition to_bool {A} (x : option A) : bool :=
  match x with Some _ => true | None => false end.

(** The outcome of evaluating code that may throw. *)
Inductive Completion (A : Type) : Type :=
| Normal (a : A)
| Throw (e : string).
Arguments Normal {A} a.
Arguments Throw {A} e.

Definition bind {A B} (c : Completion A) (k : A → Completion B) : Completion B :=
  match c with
  | Normal a => k a
  | Throw e => Throw e
  end.

(** Reading property [p] of [x]: a [TypeError] when [x] is [null]. *)
Definition get_prop {A B} (x : option A) (p : A → B) : Completion B :=
  match x with
  | Some a => Normal (p a)
  | None => Throw "TypeError"
  end.

(** The white space of [String.prototype.trim] (WhiteSpace and
    LineTerminator).  A string is its UTF-8 bytes, so a code point is
    one, two or three of them.  One byte: U+0009 to U+000D and U+0020. *)
Definition is_space (a : ascii) : bool :=
  bool_decide (a ∈ [" "; "009"; "010"; "011"; "012"; "013"]%char).

(** Two bytes: U+00A0. *)
Definition is_space2 (a b : ascii) : bool :=
  bool_decide ((a, b) = ("194", "160")%char).

(** Three bytes: U+1680, U+2000 to U+200A, U+2028, U+2029, U+202F,
    U+205F, U+3000 and U+FEFF. *)
Definition is_space3 (a b c : ascii) : bool :=
  bool_decide ((a, b, c) ∈
    [("225", "154", "128");
     ("226", "128", "128"); ("226", "128", "129"); ("226", "128", "130");
     ("226", "128", "131"); ("226", "128", "132"); ("226", "128", "133");
     ("226", "128", "134"); ("226", "128", "135"); ("226", "128", "136");
     ("226", "128", "137"); ("226", "128", "138");
     ("226", "128", "168"); ("226", "128", "169"); ("226", "128", "175");
     ("226", "129", "159");
     ("227", "128", "128");
     ("239", "187", "191")]%char).

(** [s.trimStart()]. *)
Fixpoint trim_start (s : string) : string :=
  match s with
  | String a s1 =>
      if is_space a then trim_start s1
      else
        match s1 with
        | String b s2 =>
            if is_space2 a b then trim_start s2
            else
              match s2 with
              | String c s3 => if is_space3 a b c then trim_start s3 else s
              | EmptyString => s
              end
        | EmptyString => s
        end
  | EmptyString => EmptyString
  end.

(** [s] is made of white space only. *)
Fixpoint all_space (s : string) : bool :=
  match s with
  | String a s1 =>
      if is_space a then all_space s1
      else
        match s1 with
        | String b s2 =>
            if is_space2 a b then all_space s2
            else
              match s2 with
              | String c s3 => is_space3 a b c && all_space s3
              | EmptyString => false
              end
        | EmptyString => false
        end
  | EmptyString => true
  end.

(** [s.trimEnd()]: [s] up to where only white space follows. *)
Fixpoint trim_end (s : string) : string :=
  match s with
  | String a s' => if all_space s then EmptyString else String a (trim_end s')
  | EmptyString => EmptyString
  end.

(** [s.trim()]. *)
Definition trim (s : string) : string := trim_end (trim_start s).

(** [name.split(".").pop()]: what follows the last dot, the whole name
    when it has none. *)
Fixpoint last_segment_aux (acc : string) (s : string) : string :=
  match s with
  | EmptyString => String.rev acc
  | String a s' =>
      if decide (a = "."%char) then last_segment_aux EmptyString s'
      else last_segment_aux (String a acc) s'
  end.

Definition last_segment (s : string) : string := last_segment_aux EmptyString s.

End Js.

(** ** The Supabase client, as far as the pages use it *)
Module Supabase.

(** A call resolves to [{ data, error }]; exactly one of them is set. *)
Inductive Response (A : Type) : Type :=
| Data (d : A)
| Failure (e : string).
Arguments Data {A} d.
Arguments Failure {A} e.

(** [.single()]: exactly one row, an error otherwise. *)
Definition single {A} (rows : list A) : Response A :=
  match rows with
  | [r] => Data r
  | _ => Failure "PGRST116"
  end.

(** [.maybeSingle()]: no row is [null], two rows or more are an error. *)
Definition maybeSingle {A} (rows : list A) : Response (option A) :=
  match rows with
  | [] => Data None
  | [r] => Data (Some r)
  | _ => Failure "PGRST116"
  end.

(** [.limit(n)]. *)
Definition limit {A} (n : nat) (rows : list A) : list A := take n rows.

(** The two directions of [ORDER BY col]. *)
Definition asc {A} (col : A → Z) : relation A := λ a b, col a ≤ col b.
Definition desc {A} (col : A → Z) : relation A := λ a b, col b ≤ col a.

#[global] Instance asc_dec {A} (col : A → Z) a b : Decision (asc col a b).
Proof. unfold asc. apply _. Defined.

#[global] Instance desc_dec {A} (col : A → Z) a b : Decision (desc col a b).
Proof. unfold desc. apply _. Defined.

(** [.order(col, { ascending })] on a column of timestamps.  Rows with
    equal keys come out in the order the sort leaves them: the query
    names no second column. *)
Definition order {A} (col : A → Z) (ascending : bool) (rows : list A) : list A :=
  if ascending then merge_sort (asc col) rows else merge_sort (desc col) rows.

(** A call that the transport may fail before the query is answered. *)
Definition call {A} (fault : option string) (answer : Response A) : Response A :=
  match fault with
  | Some e => Failure e
  | None => answer
  end.

Record User := {
  id : string;
  email : string;
  role : option string;        (* user_metadata?.role *)
  full_name : string;          (* user_metadata.full_name *)
}.

Record UserRequest := {
  request_id : string;
  user_id : string;
  status : string;
  requested_at : Z;            (* creation time of the request *)
}.

Record AdminAccess := {
  accessed_user_id : string;
  access_reason : option string;
  accessed_at : Z;
}.

Record Message := {
  message_id : string;
  sender_id : string;
  receiver_id : string;
  content : string;
  image_url : option string;
  created_at : Z;              (* the ISO timestamp, as milliseconds *)
}.

Record Backend := {
  user_requests : list UserRequest;
  admin_access : list AdminAccess;
  messages_table : list Message;
  users : list User;
}.

End Supabase.

(** ** [src/pages/Dashboard.tsx] *)
Module Dashboard.
Import Js Supabase.

Inductive ToastType := success | error.

(** What the page does to the outside: [toast.success] and [toast.error]
    with the [id] option when one is passed, [navigate] and
    [console.error]. *)
Inductive Effect :=
| Toast (type : ToastType) (message : string) (toastId : option string)
| Navigate (to : string)
| ConsoleError (label : string).

#[global] Instance ToastType_eq_dec : EqDecision ToastType.
Proof. solve_decision. Defined.

#[global] Instance Effect_eq_dec : EqDecision Effect.
Proof. solve_decision. Defined.

(** *** Unique toasts (lines 27-49) *)

(** The module-level [shownToasts] set, the pending [setTimeout]
    callbacks (due time and the key each one deletes), the time, and the
    toasts shown so far. *)
Record Toaster := {
  shownToasts : gset string;
  timers : list (Z * string);
  now : Z;
  shown : list Effect;
}.

Definition cooldown : Z := 5000.

Definition start : Toaster :=
  {| shownToasts := ∅; timers := []; now := 0; shown := [] |}.

Definition showUniqueToast (message : string) (type : ToastType)
    (id : option string) (w : Toaster) : Toaster :=
  let toastId := or_else id message in
  if decide (toastId ∈ shownToasts w) then w
  else
    {| shownToasts := {[toastId]} ∪ shownToasts w;
       timers := (timers w ++ [(now w + cooldown, toastId)])%list;
       now := now w;
       shown := (shown w ++ [Toast type message (Some toastId)])%list |}.

(** The callbacks of [setTimeout]: [shownToasts.delete(toastId)]. *)
Definition expire (s : gset string) (due : list (Z * string)) : gset string :=
  foldl (λ s tm, s ∖ {[tm.2]}) s due.

(** Time passes until [t]: the callbacks that are due by then run, in the
    order they were set. *)
Definition elapse (t : Z) (w : Toaster) : Toaster :=
  {| shownToasts := expire (shownToasts w) (filter (λ tm, tm.1 ≤ t) (timers w));
     timers := filter (λ tm, ¬ tm.1 ≤ t) (timers w);
     now := now w `max` t;
     shown := shown w |}.

(** [showUniqueToast] called at time [t]. *)
Definition notify_at (t : Z) (message : string) (type : ToastType)
    (id : option string) (w : Toaster) : Toaster :=
  showUniqueToast message type id (elapse t w).

(** Every pending callback deletes a key that is in the set, and no two
    of them delete the same key. *)
Definition tickets_ok (w : Toaster) : Prop :=
  NoDup (timers w).*2 ∧ ∀ k, k ∈ (timers w).*2 → k ∈ shownToasts w.

(** The states the toaster reaches from [start]. *)
Inductive reachable : Toaster → Prop :=
| reachable_start : reachable start
| reachable_notify t message type id w :
    reachable w → reachable (notify_at t message type id w).

(** *** The application-status check (lines 83-156) *)

Record State := {
  hasRequest : bool;
  applicationStatus : option string;
  rejectionReason : option string;
}.

Definition initial : State :=
  {| hasRequest := false; applicationStatus := None; rejectionReason := None |}.

Definition setHasRequest (b : bool) (st : State) : State :=
  {| hasRequest := b;
     applicationStatus := applicationStatus st;
     rejectionReason := rejectionReason st |}.

Definition setApplicationStatus (s : option string) (st : State) : State :=
  {| hasRequest := hasRequest st;
     applicationStatus := s;
     rejectionReason := rejectionReason st |}.

Definition setRejectionReason (s : option string) (st : State) : State :=
  {| hasRequest := hasRequest st;
     applicationStatus := applicationStatus st;
     rejectionReason := s |}.

(** The three queries of [checkStatus]. *)
Definition requestOf (db : Backend) (uid : string) : Response (option UserRequest) :=
  maybeSingle (filter (λ r, user_id r = uid) (user_requests db)).

Definition statusOf (db : Backend) (uid : string) : Response UserRequest :=
  single (filter (λ r, user_id r = uid) (user_requests db)).

Definition latestAccess (db : Backend) (uid : string) : Response AdminAccess :=
  single (limit 1 (order accessed_at false
    (filter (λ a, accessed_user_id a = uid) (admin_access db)))).

(** The transport faults of one run, one per remote call. *)
Record Faults := {
  count_fault : option string;
  status_fault : option string;
  reason_fault : option string;
}.

Definition no_fault : Faults :=
  {| count_fault := None; status_fault := None; reason_fault := None |}.

Definition caught : list Effect := [ConsoleError "Error checking application status:"].

(** After the first [await] (lines 96-101).  The flag tells whether the
    function goes on to the next query. *)
Definition afterCount (reply : Response (option UserRequest)) (st : State)
    : State * list Effect * bool :=
  match reply with
  | Failure _ => (st, caught, false)
  | Data requests => (setHasRequest (to_bool requests) st, [], to_bool requests)
  end.

(** After the second [await] (lines 108-113) and, when the status is not
    ["rejected"], the rest of the function (lines 126-137). *)
Definition afterStatus (reply : Response UserRequest) (st : State)
    : State * list Effect * bool :=
  match reply with
  | Failure _ => (st, caught, false)
  | Data data =>
      let st' := setApplicationStatus (or_null (Some (status data))) st in
      if decide (status data = "rejected") then (st', [], true)
      else if decide (status data = "approved")
      then (st', [Toast success "Your application has been approved!" None], false)
      else (st', [], false)
  end.

(** After the third [await], reached with the status ["rejected"]
    (lines 120-122 and 131-137).  Its [error] is not read. *)
Definition afterReason (reply : Response AdminAccess) (st : State)
    : State * list Effect :=
  let accessData := match reply with Data d => Some d | Failure _ => None end in
  (setRejectionReason (or_null (accessData ≫= access_reason)) st,
   [Toast error "Your application has been rejected." None; Navigate "/"]).

Definition checkStatus (user : option User) (db : Backend) (net : Faults)
    (st : State) : State * list Effect :=
  match user with
  | None => (st, [])
  | Some u =>
      let '(st1, fx1, more1) :=
        afterCount (call (count_fault net) (requestOf db (id u))) st in
      if more1 then
        let '(st2, fx2, more2) :=
          afterStatus (call (status_fault net) (statusOf db (id u))) st1 in
        if more2 then
          let '(st3, fx3) :=
            afterReason (call (reason_fault net) (latestAccess db (id u))) st2 in
          (st3, (fx1 ++ fx2 ++ fx3)%list)
        else (st2, (fx1 ++ fx2)%list)
      else (st1, fx1)
  end.

(** The effect of lines 151-156, run when [hasRequest] or
    [applicationStatus] changes. *)
Definition redirectEffect (st : State) : list Effect :=
  if hasRequest st && bool_decide (applicationStatus st = Some "rejected")
  then [Navigate "/"] else [].

(** The polling effect (lines 144-148): the state, whether the interval
    of [setInterval] is still set, and the effects so far. *)
Record Tracker := {
  state : State;
  polling : bool;
  effects : list Effect;
}.

Definition unmounted : Tracker :=
  {| state := initial; polling := false; effects := [] |}.

Definition runCheck (user : option User) (db : Backend) (net : Faults)
    (tr : Tracker) : Tracker :=
  let '(st, fx) := checkStatus user db net (state tr) in
  {| state := st; polling := polling tr; effects := (effects tr ++ fx)%list |}.

(** [checkStatus(); const interval = setInterval(checkStatus, 30000)]. *)
Definition mount (user : option User) (db : Backend) (net : Faults)
    (tr : Tracker) : Tracker :=
  let tr' := runCheck user db net tr in
  {| state := state tr'; polling := true; effects := effects tr' |}.

(** One period of the interval. *)
Definition tick (user : option User) (tr : Tracker) (remote : Backend * Faults)
    : Tracker :=
  if polling tr then runCheck user remote.1 remote.2 tr else tr.

(** The cleanup: [clearInterval(interval)]. *)
Definition unmount (tr : Tracker) : Tracker :=
  {| state := state tr; polling := false; effects := effects tr |}.

(** The page from its mount through the ticks of [remotes], the backend
    and the faults met by each check. *)
Definition poll (user : option User) (first : Backend * Faults)
    (remotes : list (Backend * Faults)) : Tracker :=
  foldl (tick user) (mount user first.1 first.2 unmounted) remotes.

Definition isToast (type : ToastType) (e : Effect) : bool :=
  match e with
  | Toast type' _ _ => bool_decide (type' = type)
  | _ => false
  end.

Definition isNavigate (e : Effect) : bool :=
  match e with Navigate _ => true | _ => false end.

(** How many effects of a log satisfy [p]. *)
Definition count (p : Effect → bool) (fx : list Effect) : nat :=
  length (filter (λ e, p e = true) fx).

(** Replies of the status query reaching the page, each with the number
    of the [checkStatus] call that sent the query.  The number is not in
    the code: it only names the call in statements. *)
Definition deliverStatus (st : State) (reply : nat * Response UserRequest) : State :=
  (afterStatus reply.2 st).1.1.

(** The status carried by the last reply of [replies] that is not an
    error, if there is one. *)
Definition lastStatus (replies : list (nat * Response UserRequest))
    : option (option string) :=
  last (omap (λ reply, match reply.2 with
                       | Data data => Some (or_null (Some (status data)))
                       | Failure _ => None
                       end) replies).

End Dashboard.

(** ** [src/pages/Messages.tsx] *)
Module Messages.
Import Js Supabase.

Record File := { file_name : string }.

(** The row handed to [insert]: the store adds the id. *)
Record NewMessage := {
  new_sender_id : string;
  new_receiver_id : string;
  new_content : string;
  new_image_url : option string;
  new_created_at : Z;
}.

Inductive Effect :=
| ConsoleError (label : string)
| Upload (bucket path : string)
| Insert (row : NewMessage)
| Subscribe (channel filter : string).

Record State := {
  adminUser : option User;
  messages : list Message;
  isLoading : bool;
  isModalOpen : bool;
  newMessage : string;
  selectedFile : option File;
}.

Definition initial : State :=
  {| adminUser := None; messages := []; isLoading := true;
     isModalOpen := false; newMessage := ""; selectedFile := None |}.

Definition setAdminUser (a : option User) (st : State) : State :=
  {| adminUser := a; messages := messages st; isLoading := isLoading st;
     isModalOpen := isModalOpen st; newMessage := newMessage st;
     selectedFile := selectedFile st |}.

Definition setMessages (l : list Message) (st : State) : State :=
  {| adminUser := adminUser st; messages := l; isLoading := isLoading st;
     isModalOpen := isModalOpen st; newMessage := newMessage st;
     selectedFile := selectedFile st |}.

Definition setIsLoading (b : bool) (st : State) : State :=
  {| adminUser := adminUser st; messages := messages st; isLoading := b;
     isModalOpen := isModalOpen st; newMessage := newMessage st;
     selectedFile := selectedFile st |}.

Definition setIsModalOpen (b : bool) (st : State) : State :=
  {| adminUser := adminUser st; messages := messages st; isLoading := isLoading st;
     isModalOpen := b; newMessage := newMessage st;
     selectedFile := selectedFile st |}.

Definition setNewMessage (s : string) (st : State) : State :=
  {| adminUser := adminUser st; messages := messages st; isLoading := isLoading st;
     isModalOpen := isModalOpen st; newMessage := s;
     selectedFile := selectedFile st |}.

Definition setSelectedFile (f : option File) (st : State) : State :=
  {| adminUser := adminUser st; messages := messages st; isLoading := isLoading st;
     isModalOpen := isModalOpen st; newMessage := newMessage st;
     selectedFile := f |}.

(** *** Fetching the messages (lines 27-43 and 121-136) *)

(** [.or(sender_id.eq.uid,receiver_id.eq.uid)]. *)
Definition involves (uid : string) (m : Message) : Prop :=
  sender_id m = uid ∨ receiver_id m = uid.

#[global] Instance involves_dec uid m : Decision (involves uid m).
Proof. unfold involves. apply _. Defined.

Definition listMessages (db : Backend) (uid : string) (ascending : bool)
    : Response (option (list Message)) :=
  Data (Some (order created_at ascending (filter (involves uid) (messages_table db)))).

(** After the [await] of either fetch: [setMessages(messages || [])], or
    the error is logged. *)
Definition afterFetch (reply : Response (option (list Message))) (st : State)
    : State * list Effect :=
  match reply with
  | Failure _ => (st, [ConsoleError "Error fetching messages:"])
  | Data messages => (setMessages (default [] messages) st, [])
  end.

Definition fetchWith (ascending : bool) (user : option User) (db : Backend)
    (fault : option string) (st : State) : State * list Effect :=
  match user with
  | None => (st, [])
  | Some u => afterFetch (call fault (listMessages db (id u) ascending)) st
  end.

(** The [fetchMessages] of the first effect (lines 27-43):
    [ascending: true]. *)
Definition fetchMessages_effect := fetchWith true.

(** The [fetchMessages] of the component (lines 121-136), also called by
    [handleSendMessage]: [ascending: false]. *)
Definition fetchMessages := fetchWith false.

(** Replies of a fetch reaching the page, each with the number of the
    call that sent the query.  The number is not in the code: it only
    names the call in statements. *)
Definition deliverFetch (st : State) (reply : nat * Response (option (list Message)))
    : State :=
  (afterFetch reply.2 st).1.

(** The rows carried by the last reply of [replies] that is not an
    error, if there is one. *)
Definition lastFetched (replies : list (nat * Response (option (list Message))))
    : option (list Message) :=
  last (omap (λ reply, match reply.2 with
                       | Data messages => Some (default [] messages)
                       | Failure _ => None
                       end) replies).

(** *** The realtime subscription (lines 45-66 and 137-160) *)

(** The [filter] template string: both holes read [user.id]. *)
Definition subscriptionFilter (user : option User) : Completion string :=
  bind (get_prop user id) (λ a,
  bind (get_prop user id) (λ b,
  Normal ("sender_id=eq." ++ a ++ " OR receiver_id=eq." ++ b)%string)).

Definition subscribe (user : option User) : Completion Effect :=
  bind (subscriptionFilter user) (λ f, Normal (Subscribe "messages" f)).

(** The body of a subscription effect.  [fetchMessages()] is called and
    not awaited: with a user it sends its query and returns, the
    subscription is made at once, and the reply of the fetch is handled
    after that; without a user it returns at its first line.  The result
    is the state and the log once both are done, and whether the body
    completed. *)
Definition effectBody (ascending : bool) (user : option User) (db : Backend)
    (fault : option string) (st : State) : State * list Effect * Completion unit :=
  let '(st1, fx1) := fetchWith ascending user db fault st in
  match subscribe user with
  | Normal e => (st1, e :: fx1, Normal ())
  | Throw err => (st1, fx1, Throw err)
  end.

(** The effect declared before the early return (lines 26-67): every
    render registers it, with or without a user. *)
Definition messagesEffect := effectBody true.

(** The effect declared after [if (!user) return null] (lines 118 and
    137-160): a render without a user returns before it, so nothing of
    it runs then. *)
Definition refreshEffect (user : option User) (db : Backend)
    (fault : option string) (st : State) : State * list Effect * Completion unit :=
  match user with
  | Some u => effectBody false (Some u) db fault st
  | None => (st, [], Normal ())
  end.

(** *** The counterpart (lines 69-116) *)

Definition qualifying (r : UserRequest) : Prop :=
  status r = "pending" ∨ status r = "approved".

#[global] Instance qualifying_dec r : Decision (qualifying r).
Proof. unfold qualifying. apply _. Defined.

(** [.in("status", ["pending", "approved"]).limit(1).single()]. *)
Definition firstRequest (db : Backend) : Response UserRequest :=
  single (limit 1 (filter qualifying (user_requests db))).

Definition getUserById (db : Backend) (uid : string) : Response User :=
  match List.find (λ u, bool_decide (id u = uid)) (users db) with
  | Some u => Data u
  | None => Failure "User not found"
  end.

Definition listUsers (db : Backend) : Response (list User) := Data (users db).

Definition isAdminUser (u : User) : bool := bool_decide (role u = Some "admin").

Definition loadFailed : list Effect := [ConsoleError "Error loading users:"].

Definition loadAdminUser (user : option User) (db : Backend)
    (fault1 fault2 : option string) (st : State) : State * list Effect :=
  match user with
  | None => (st, [])
  | Some u =>
      let '(st', fx) :=
        if isAdminUser u then
          match call fault1 (firstRequest db) with
          | Failure _ => (st, loadFailed)
          | Data users =>
              match call fault2 (getUserById db (user_id users)) with
              | Failure _ => (st, loadFailed)
              | Data userData => (setAdminUser (Some userData) st, [])
              end
          end
        else
          match call fault1 (listUsers db) with
          | Failure _ => (st, loadFailed)
          | Data adminUsers =>
              match List.find isAdminUser adminUsers with
              | Some admin => (setAdminUser (Some admin) st, [])
              | None => (st, [])
              end
          end in
      (setIsLoading false st', fx)
  end.

(** *** Sending (lines 171-213) *)

(** What one call of [handleSendMessage] meets outside the page:
    [Math.random()] as printed, the time of [new Date()], the public URL
    of a stored path, the faults of the three remote calls and the id the
    store gives to the new row. *)
Record Outside := {
  random : string;
  date : Z;
  publicUrl : string → string;
  upload_fault : option string;
  insert_fault : option string;
  fetch_fault : option string;
  assigned_id : string;
}.

(** The store after a successful insert. *)
Definition inserted (new_id : string) (row : NewMessage) (db : Backend) : Backend :=
  {| user_requests := user_requests db;
     admin_access := admin_access db;
     messages_table := messages_table db ++
       [{| message_id := new_id;
           sender_id := new_sender_id row;
           receiver_id := new_receiver_id row;
           content := new_content row;
           image_url := new_image_url row;
           created_at := new_created_at row |}];
     users := users db |}.

Definition sendFailed : list Effect := [ConsoleError "Error sending message:"].

(** Lines 176-193: the upload of the selected file, if any. *)
Definition uploadSelected (u : User) (out : Outside) (st : State)
    : Response string * list Effect :=
  match selectedFile st with
  | Some file =>
      let fileExt := last_segment (file_name file) in
      let fileName := (random out ++ "." ++ fileExt)%string in
      let filePath := (id u ++ "/" ++ fileName)%string in
      (call (upload_fault out) (Data (publicUrl out filePath)),
       [Upload "message-images" filePath])
  | None => (Data "", [])
  end.

Section Send.

(** [adminId], exported by the admin panel module. *)
Variable adminId : string.

Definition outgoing (u : User) (out : Outside) (st : State) (fileUrl : string)
    : NewMessage :=
  {| new_sender_id := id u;
     new_receiver_id := adminId;
     new_content := trim (newMessage st);
     new_image_url := or_null (Some fileUrl);
     new_created_at := date out |}.

Definition handleSendMessage (user : option User) (out : Outside)
    (db : Backend) (st : State) : State * Backend * list Effect :=
  match user with
  | None => (st, db, [])
  | Some u =>
      let '(uploaded, fx1) := uploadSelected u out st in
      match uploaded with
      | Failure _ => (st, db, (fx1 ++ sendFailed)%list)
      | Data fileUrl =>
          let row := outgoing u out st fileUrl in
          match insert_fault out with
          | Some _ => (st, db, (fx1 ++ [Insert row] ++ sendFailed)%list)
          | None =>
              let db' := inserted (assigned_id out) row db in
              let st1 := setIsModalOpen false
                           (setSelectedFile None (setNewMessage "" st)) in
              let '(st2, fx2) := fetchMessages user db' (fetch_fault out) st1 in
              (st2, db', (fx1 ++ [Insert row] ++ fx2)%list)
          end
      end
  end.

End Send.

Definition inserts (fx : list Effect) : list NewMessage :=
  omap (λ e, match e with Insert row => Some row | _ => None end) fx.

(** *** Display order *)

(** The order the specification asks of a displayed list: by
    [created_at], and by id among equal timestamps. *)
Definition precedes (m1 m2 : Message) : Prop :=
  created_at m1 < created_at m2 ∨
  (created_at m1 = created_at m2 ∧ String.ltb (message_id m1) (message_id m2) = true).

Definition displayedInOrder (l : list Message) : Prop :=
  ∀ i j m1 m2, l !! i = Some m1 → l !! j = Some m2 → precedes m1 m2 → (i < j)%nat.

Definition displayedByTime (l : list Message) : Prop :=
  ∀ i j m1 m2, l !! i = Some m1 → l !! j = Some m2 →
    created_at m1 < created_at m2 → (i < j)%nat.

End Messages.

(** ** Concrete users and backends *)
Module Scenario.
Import Supabase.

Definition alice : User :=
  {| id := "u1"; email := "alice@example.org"; role := None; full_name := "Alice" |}.

Definition bob : User :=
  {| id := "u2"; email := "bob@example.org"; role := None; full_name := "Bob" |}.

Definition root : User :=
  {| id := "a0"; email := "root@example.org"; role := Some "admin"; full_name := "Root" |}.

(** Alice has one request, with status [s], and two audit records. *)
Definition requestDb (s : string) : Backend :=
  {| user_requests :=
       [{| request_id := "r1"; user_id := "u1"; status := s; requested_at := 10 |}];
     admin_access :=
       [{| accessed_user_id := "u1"; access_reason := Some "first look"; accessed_at := 20 |};
        {| accessed_user_id := "u2"; access_reason := Some "other user"; accessed_at := 40 |};
        {| accessed_user_id := "u1"; access_reason := Some "incomplete profile"; accessed_at := 30 |}];
     messages_table := [];
     users := [alice; bob; root] |}.

(** Two requests under review: Alice's, the older, is the first row. *)
Definition reviewDb : Backend :=
  {| user_requests :=
       [{| request_id := "r0"; user_id := "u3"; status := "rejected"; requested_at := 5 |};
        {| request_id := "r1"; user_id := "u1"; status := "pending"; requested_at := 10 |};
        {| request_id := "r2"; user_id := "u2"; status := "approved"; requested_at := 20 |}];
     admin_access := [];
     messages_table := [];
     users := [alice; bob; root] |}.

Definition text (i from to body : string) (at_ : Z) : Message :=
  {| message_id := i; sender_id := from; receiver_id := to; content := body;
     image_url := None; created_at := at_ |}.

(** A conversation of two messages, a second apart. *)
Definition chatDb : Backend :=
  {| user_requests := []; admin_access := [];
     messages_table := [text "m1" "u1" "a0" "hello" 1000; text "m2" "a0" "u1" "welcome" 2000];
     users := [alice; root] |}.

(** Two messages of the same millisecond. *)
Definition tieDb : Backend :=
  {| user_requests := []; admin_access := [];
     messages_table := [text "b" "u1" "a0" "first" 1000; text "a" "a0" "u1" "second" 1000];
     users := [alice; root] |}.

(** What Alice's send of "hello" meets: the insert is refused. *)
Definition refused : Messages.Outside :=
  {| Messages.random := "0.42"; Messages.date := 3000;
     Messages.publicUrl := λ path, ("https://store.example/" ++ path)%string;
     Messages.upload_fault := None;
     Messages.insert_fault := Some "new row violates row-level security policy";
     Messages.fetch_fault := None;
     Messages.assigned_id := "m3" |}.

Definition accepted : Messages.Outside :=
  {| Messages.random := "0.42"; Messages.date := 3000;
     Messages.publicUrl := λ path, ("https://store.example/" ++ path)%string;
     Messages.upload_fault := None;
     Messages.insert_fault := None;
     Messages.fetch_fault := None;
     Messages.assigned_id := "m3" |}.

Definition draft (body : string) (counterpart : option User) : Messages.State :=
  {| Messages.adminUser := counterpart; Messages.messages := [];
     Messages.isLoading := false; Messages.isModalOpen := true;
     Messages.newMessage := body; Messages.selectedFile := None |}.

Definition statusLost : Dashboard.Faults :=
  {| Dashboard.count_fault := None;
     Dashboard.status_fault := Some "Failed to fetch";
     Dashboard.reason_fault := None |}.

End Scenario.

(** ** The rest of [src/pages/Dashboard.tsx] *)
Module DashboardPage.
Import Js Supabase Dashboard.

(** Calls of [showUniqueToast], each at its time. *)
Record Call := {
  call_time : Z;
  call_message : string;
  call_type : ToastType;
  call_id : option string;
}.

(** The key a call is de-duplicated by: [id || message]. *)
Definition call_key (c : Call) : string := or_else (call_id c) (call_message c).

Definition calls (cs : list Call) (w : Toaster) : Toaster :=
  foldl (λ w c, notify_at (call_time c) (call_message c) (call_type c) (call_id c) w) w cs.

Definition hasKey (key : string) (e : Effect) : bool :=
  match e with
  | Toast _ _ (Some k) => bool_decide (k = key)
  | _ => false
  end.

(** Held keys and pending callbacks go together, and no callback is due
    later than the cooldown from now. *)
Definition tickets_live (w : Toaster) : Prop :=
  tickets_ok w ∧
  (∀ k, k ∈ shownToasts w → k ∈ (timers w).*2) ∧
  Forall (λ tm, tm.1 ≤ now w + cooldown) (timers w).

(** *** Signing out (lines 64-74) *)

(** [isLoading], the toaster and the console. *)
Record Shell := {
  isLoading : bool;
  toaster : Toaster;
  console : list Effect;
}.

Definition opened : Shell :=
  {| isLoading := true; toaster := start; console := [] |}.

(** [signOut] of the auth context either returns or throws; [t] is the
    time at which its promise settles. *)
Definition handleSignOut (signOut : Completion unit) (t : Z) (sh : Shell) : Shell :=
  let sh' :=
    match signOut with
    | Normal _ => sh
    | Throw _ =>
        {| isLoading := isLoading sh;
           toaster := notify_at t "Failed to sign out" error (Some "signout-error")
                        (toaster sh);
           console := (console sh ++ [ConsoleError "Error signing out:"])%list |}
    end in
  {| isLoading := false; toaster := toaster sh'; console := console sh' |}.

(** The status a check reads, when it gets as far as reading one. *)
Definition statusRead (user : option User) (db : Backend) (net : Faults)
    : option string :=
  match user with
  | None => None
  | Some u =>
      match call (count_fault net) (requestOf db (id u)),
            call (status_fault net) (statusOf db (id u)) with
      | Data (Some _), Data r => Some (status r)
      | _, _ => None
      end
  end.

(** *** The check together with the redirect effect (lines 83-156) *)

(** The effect of lines 151-156 runs again after a render in which
    [hasRequest] or [applicationStatus] has changed. *)
Definition redirectOnChange (st st' : State) : list Effect :=
  if bool_decide (hasRequest st' = hasRequest st ∧
                  applicationStatus st' = applicationStatus st)
  then [] else redirectEffect st'.

(** [checkStatus] as the page runs it.  Each [await] lets the page render
    the state set so far, and the redirect effect runs then: after
    [setHasRequest] while the status query is out, and after
    [setApplicationStatus], which for "rejected" is while the audit query
    is out and otherwise once the function has returned.
    [rejectionReason] is not among the dependencies of the effect. *)
Definition checkStatusOnPage (user : option User) (db : Backend) (net : Faults)
    (st : State) : State * list Effect :=
  match user with
  | None => (st, [])
  | Some u =>
      let '(st1, fx1, more1) :=
        afterCount (call (count_fault net) (requestOf db (id u))) st in
      let on1 := redirectOnChange st st1 in
      if more1 then
        let '(st2, fx2, more2) :=
          afterStatus (call (status_fault net) (statusOf db (id u))) st1 in
        let on2 := redirectOnChange st1 st2 in
        if more2 then
          let '(st3, fx3) :=
            afterReason (call (reason_fault net) (latestAccess db (id u))) st2 in
          (st3, (fx1 ++ on1 ++ fx2 ++ on2 ++ fx3)%list)
        else (st2, (fx1 ++ on1 ++ fx2 ++ on2)%list)
      else (st1, (fx1 ++ on1)%list)
  end.

(** The state already reads a rejected request. *)
Definition readsRejected (st : State) : bool :=
  hasRequest st && bool_decide (applicationStatus st = Some "rejected").

(** *** What the page renders (lines 157-280) *)

Inductive View := Spinner | PendingPage | RejectedPage | Main.

(** [!applicationStatus]. *)
Definition noStatus (st : State) : bool := negb (to_bool (or_null (applicationStatus st))).

Definition view (isLoading showOnboarding : bool) (st : State) : View :=
  if isLoading && noStatus st && negb showOnboarding then Spinner
  else if hasRequest st && bool_decide (applicationStatus st = Some "pending")
  then PendingPage
  else if hasRequest st && bool_decide (applicationStatus st = Some "rejected")
  then RejectedPage
  else Main.

(** *** The greeting (lines 352 and 441) *)

(** [s.split(" ")[0]]: what precedes the first space. *)
Fixpoint firstWord (s : string) : string :=
  match s with
  | EmptyString => EmptyString
  | String a s' => if decide (a = " "%char) then EmptyString else String a (firstWord s')
  end.

(** [user?.user_metadata?.full_name?.split(" ")[0] || "User"]. *)
Definition greetingName (user : option User) : string :=
  or_else (firstWord <$> (full_name <$> user)) "User".

Fixpoint hasChar (a : ascii) (s : string) : bool :=
  match s with
  | EmptyString => false
  | String b s' => bool_decide (a = b) || hasChar a s'
  end.

End DashboardPage.

(** ** [src/components/ProtectedRoute.tsx] *)
Module Route.
Import Supabase.

Inductive Rendered :=
| Loading
| NavigateTo (to from : string) (replace : bool)
| Children.

(** The component: what it renders and the toast it shows, from the
    [loading] flag and the user of the auth context and the current
    location. *)
Definition ProtectedRoute (loading : bool) (user : option User) (location : string)
    : Rendered * list Dashboard.Effect :=
  if loading then (Loading, [])
  else
    match user with
    | None =>
        (NavigateTo "/login" location true,
         [Dashboard.Toast Dashboard.error "Access denied. Please sign in to continue." None])
    | Some _ => (Children, [])
    end.

End Route.

(** ** The rest of [src/pages/Messages.tsx] *)
Module MessagesPage.
Import Js Supabase Messages.

(** Lines 165-169: [e.target.files] is [null] or a list. *)
Definition handleFileSelect (files : option (list File)) (st : State) : State :=
  match files with
  | Some (f :: _) => setSelectedFile (Some f) st
  | _ => st
  end.

(** The Send button is enabled (line 330). *)
Definition canSend (st : State) : bool :=
  negb (bool_decide (trim (newMessage st) = "") && negb (to_bool (selectedFile st))).

(** The Cancel button (lines 319-323). *)
Definition cancel (st : State) : State :=
  setSelectedFile None (setNewMessage "" (setIsModalOpen false st)).

(** The name over a message (lines 217 and 229-231). *)
Definition senderLabel (user : option User) (st : State) (m : Message) : string :=
  if bool_decide (Some (sender_id m) = id <$> user) then "You"
  else or_else (full_name <$> adminUser st) "Admin".

(** What the page renders below its header (lines 118 and 339-371): the
    messages, and for a resolved counterpart the props of the panel. *)
Inductive View :=
| Nothing
| Spinner
| Conversation (shown : list Message) (userId : string) (isAdmin : bool)
    (otherUserId userName : string)
| ListOnly (shown : list Message).

Definition view (user : option User) (st : State) : View :=
  match user with
  | None => Nothing
  | Some u =>
      if isLoading st then Spinner
      else
        match adminUser st with
        | Some a =>
            Conversation (messages st) (id u) (isAdminUser u) (id a)
              (or_else (Some (full_name a)) (email a))
        | None => ListOnly (messages st)
        end
  end.

End MessagesPage.

(** * Properties *)

Import Js Supabase.

(** ** Unique toasts *)
Section UniqueToasts.
Import Dashboard.

Lemma elem_of_expire (k : string) (s : gset string) (due : list (Z * string)) :
  k ∈ expire s due ↔ k ∈ s ∧ k ∉ due.*2.
Proof.
  unfold expire. revert s.
  induction due as [|[d k'] due IH]; intros s; simpl.
  - set_solver.
  - rewrite IH. set_solver.
Qed.

Lemma tickets_ok_start : tickets_ok start.
Proof. split; simpl; [constructor | set_solver]. Qed.

Lemma one_timer_per_key (l : list (Z * string)) (d d' : Z) (k : string) :
  NoDup l.*2 → (d, k) ∈ l → (d', k) ∈ l → d = d'.
Proof.
  induction l as [|[a b] l IH]; simpl; intros Hnd H1 H2.
  - by apply elem_of_nil in H1.
  - apply NoDup_cons in Hnd as [Hfresh Hnd].
    assert (∀ x, (x, k) ∈ l → k ∈ l.*2) as Hkey.
    { intros x Hx. apply list_elem_of_fmap. by exists (x, k). }
    apply elem_of_cons in H1 as [H1|H1]; apply elem_of_cons in H2 as [H2|H2].
    + congruence.
    + inversion H1; subst. destruct Hfresh. eauto.
    + inversion H2; subst. destruct Hfresh. eauto.
    + by apply IH.
Qed.

Lemma tickets_ok_elapse (t : Z) (w : Toaster) :
  tickets_ok w → tickets_ok (elapse t w).
Proof.
  intros [Hnd Hin]. split; simpl.
  - eapply sublist_NoDup; [exact Hnd|].
    apply fmap_sublist, sublist_filter.
  - intros k Hk. apply elem_of_expire.
    apply list_elem_of_fmap in Hk as [[d k'] [-> Hk]]. simpl.
    apply list_elem_of_filter in Hk as [Hlate Hk]. simpl in Hlate.
    split.
    + apply Hin, list_elem_of_fmap. by exists (d, k').
    + intros Hdue.
      apply list_elem_of_fmap in Hdue as [[d' k''] [Heq Hdue]]. simpl in Heq. subst k''.
      apply list_elem_of_filter in Hdue as [Hearly Hdue]. simpl in Hearly.
      assert (d = d') by eauto using one_timer_per_key. lia.
Qed.

Lemma tickets_ok_showUniqueToast (message : string) (type : ToastType)
    (id : option string) (w : Toaster) :
  tickets_ok w → tickets_ok (showUniqueToast message type id w).
Proof.
  intros [Hnd Hin]. unfold showUniqueToast.
  destruct (decide _) as [|Hnew]; [by split|].
  split; simpl; rewrite fmap_app; simpl.
  - apply NoDup_app. split_and!; [done| |apply NoDup_singleton].
    intros k Hk ->%list_elem_of_singleton. by apply Hnew, Hin.
  - intros k [Hk|Hk%list_elem_of_singleton]%elem_of_app; set_solver.
Qed.

Lemma reachable_tickets_ok (w : Toaster) : reachable w → tickets_ok w.
Proof.
  induction 1; [apply tickets_ok_start|].
  by apply tickets_ok_showUniqueToast, tickets_ok_elapse.
Qed.

(** C7: a second call with the same key inside the five seconds of the
    first shows nothing more, so one toast in all; a call once the five
    seconds have passed shows a second toast. *)
Theorem showUniqueToast_cooldown (w : Toaster) (message : string)
    (type : ToastType) (k : string) (t1 t2 t3 : Z) :
  let key := or_else (Some k) message in
  let alert := Toast type message (Some key) in
  let w1 := notify_at t1 message type (Some k) w in
  let w2 := notify_at t2 message type (Some k) w1 in
  let w3 := notify_at t3 message type (Some k) w2 in
  tickets_ok w → key ∉ shownToasts w →
  now w ≤ t1 → t1 ≤ t2 → t2 < t1 + cooldown → t1 + cooldown ≤ t3 →
  shown w1 = (shown w ++ [alert])%list ∧
  shown w2 = (shown w ++ [alert])%list ∧
  shown w3 = (shown w ++ [alert; alert])%list.
Proof.
  intros key alert w1 w2 w3 Hok Hkey H01 H12 H2c Hc3.
  assert (key ∉ (timers w).*2) as Hnotimer by (intros ?; by apply Hkey, Hok).
  (* the first call *)
  assert (key ∉ shownToasts (elapse t1 w)) as Hfree.
  { simpl. rewrite elem_of_expire. tauto. }
  assert (shown w1 = (shown w ++ [alert])%list ∧
          key ∈ shownToasts w1 ∧
          timers w1 = (filter (λ tm, ¬ tm.1 ≤ t1) (timers w) ++ [(t1 + cooldown, key)])%list)
    as (Hs1 & Hin1 & Ht1).
  { subst w1. unfold notify_at, showUniqueToast. fold key.
    destruct (decide _) as [|_]; [done|]. simpl.
    split_and!; [done|set_solver|]. do 3 f_equal. lia. }
  (* the second call *)
  assert (key ∈ shownToasts (elapse t2 w1)) as Hheld.
  { simpl. rewrite elem_of_expire. split; [done|].
    rewrite Ht1, filter_app, fmap_app.
    rewrite (filter_singleton_False _ _ []) by (simpl; lia).
    rewrite app_nil_r.
    intros [[d k'] [-> Hin]]%list_elem_of_fmap. simpl in *.
    apply list_elem_of_filter in Hin as [_ [_ Hin]%list_elem_of_filter].
    apply Hnotimer, list_elem_of_fmap. by exists (d, k'). }
  assert (w2 = elapse t2 w1) as Hw2.
  { subst w2. unfold notify_at, showUniqueToast. fold key.
    by destruct (decide _). }
  (* the third call *)
  assert (key ∉ shownToasts (elapse t3 w2)) as Hgone.
  { simpl. rewrite elem_of_expire. intros [_ Hno]. apply Hno.
    apply list_elem_of_fmap. exists (t1 + cooldown, key). split; [done|].
    apply list_elem_of_filter. split; [simpl; lia|].
    rewrite Hw2. simpl. apply list_elem_of_filter. split; [simpl; lia|].
    rewrite Ht1. apply elem_of_app. right. by apply list_elem_of_singleton. }
  split_and!; [done|by rewrite Hw2| ].
  subst w3. unfold notify_at, showUniqueToast. fold key.
  destruct (decide _) as [|_]; [done|]. simpl.
  rewrite Hw2. simpl. rewrite Hs1. by rewrite <- app_assoc.
Qed.

(** Witness of C7: two calls 4999 ms apart show one toast, a third call
    at 5000 ms shows the second. *)
Lemma showUniqueToast_cooldown_witness :
  let w2 := notify_at 4999 "X" error (Some "k") (notify_at 0 "X" error (Some "k") start) in
  shown w2 = [Toast error "X" (Some "k")] ∧
  shown (notify_at 5000 "X" error (Some "k") w2)
    = [Toast error "X" (Some "k"); Toast error "X" (Some "k")].
Proof.
  destruct (showUniqueToast_cooldown start "X" error "k" 0 4999 5000)
    as (_ & H2 & H3).
  - apply tickets_ok_start.
  - simpl. set_solver.
  - simpl. lia.
  - lia.
  - unfold cooldown. lia.
  - unfold cooldown. lia.
  - split; [exact H2|exact H3].
Defined.

End UniqueToasts.

(** ** Ordered queries *)
Section Ordered.
Context {A : Type} (col : A → Z).

#[global] Instance asc_trans : Transitive (asc col).
Proof. unfold asc. intros x y z. lia. Qed.

#[global] Instance asc_total : Total (asc col).
Proof. unfold asc. intros x y. lia. Qed.

#[global] Instance desc_trans : Transitive (desc col).
Proof. unfold desc. intros x y z. lia. Qed.

#[global] Instance desc_total : Total (desc col).
Proof. unfold desc. intros x y. lia. Qed.

Lemma order_perm (ascending : bool) (rows : list A) :
  order col ascending rows ≡ₚ rows.
Proof. unfold order. destruct ascending; apply merge_sort_Permutation. Qed.

Lemma order_asc_sorted (rows : list A) :
  StronglySorted (asc col) (order col true rows).
Proof. apply StronglySorted_merge_sort; apply _. Qed.

Lemma order_desc_sorted (rows : list A) :
  StronglySorted (desc col) (order col false rows).
Proof. apply StronglySorted_merge_sort; apply _. Qed.

(** In a strongly sorted list, positions follow the relation. *)
Lemma sorted_lookup (R : relation A) (l : list A) (i j : nat) (x y : A) :
  StronglySorted R l → l !! i = Some x → l !! j = Some y → (i < j)%nat → R x y.
Proof.
  intros Hs. revert i j. induction Hs as [|a l Hs IH Hall]; intros i j Hi Hj Hlt.
  - by rewrite lookup_nil in Hi.
  - destruct j as [|j]; [lia|]. destruct i as [|i]; simpl in *.
    + injection Hi as ->. rewrite Forall_forall in Hall.
      apply Hall. by eapply list_elem_of_lookup_2.
    + eapply IH; eauto. lia.
Qed.

(** [.order(col, desc).limit(1).single()] answers with a row of the
    greatest [col]. *)
Lemma latest_is_greatest (rows : list A) (a : A) :
  single (limit 1 (order col false rows)) = Data a →
  a ∈ rows ∧ ∀ a', a' ∈ rows → col a' ≤ col a.
Proof.
  intros Hone.
  pose proof (order_desc_sorted rows) as Hs.
  pose proof (order_perm false rows) as Hp.
  destruct (order col false rows) as [|b l]; [done|].
  unfold limit in Hone. simpl in Hone. destruct l; simpl in Hone;
    injection Hone as ->.
  all: apply StronglySorted_inv in Hs as [_ Hall]; rewrite Forall_forall in Hall.
  all: split; [rewrite <- Hp; apply elem_of_cons; by left|].
  all: intros a' Ha'; rewrite <- Hp in Ha'.
  all: apply elem_of_cons in Ha' as [->|Ha']; [lia|by apply Hall].
Qed.

End Ordered.

(** ** The application-status check *)
Section StatusCheck.
Import Dashboard Scenario.

Lemma count_app (p : Effect → bool) (l k : list Effect) :
  count p (l ++ k) = (count p l + count p k)%nat.
Proof. unfold count. by rewrite filter_app, length_app. Qed.

(** A check never touches the interval. *)
Lemma runCheck_polling (user : option User) (db : Backend) (net : Faults)
    (tr : Tracker) :
  polling (runCheck user db net tr) = polling tr.
Proof. unfold runCheck. by destruct (checkStatus _ _ _ _). Qed.

Lemma poll_polling (user : option User) (first : Backend * Faults)
    (remotes : list (Backend * Faults)) :
  polling (poll user first remotes) = true.
Proof.
  unfold poll. induction remotes as [|r remotes IH] using rev_ind; [done|].
  rewrite foldl_snoc. unfold tick at 1. rewrite IH. by rewrite runCheck_polling.
Qed.

(** What a check that finds Alice's request approved adds to the log. *)
Lemma runCheck_approved (tr : Tracker) :
  effects (runCheck (Some alice) (requestDb "approved") no_fault tr)
    = (effects tr ++ [Toast success "Your application has been approved!" None])%list.
Proof. done. Qed.

(** C1: on the page as written, each check that finds the request
    approved shows the success toast again, without an id, and the
    interval stays set: after a pending check and [n] approved ones the
    log holds [n] success toasts and polling is still on. *)
Theorem approved_toast_every_tick (n : nat) :
  let tr := poll (Some alice) (requestDb "pending", no_fault)
              (replicate n (requestDb "approved", no_fault)) in
  count (isToast success) (effects tr) = n ∧
  Forall (λ e, e = Toast success "Your application has been approved!" None) (effects tr) ∧
  polling tr = true.
Proof.
  simpl. split_and!; [| |apply poll_polling].
  - unfold poll. induction n as [|n IH]; [done|].
    rewrite replicate_S_end, foldl_snoc. unfold tick at 1.
    fold (poll (Some alice) (requestDb "pending", no_fault)
            (replicate n (requestDb "approved", no_fault))).
    rewrite poll_polling. simpl fst; simpl snd.
    rewrite runCheck_approved, count_app. unfold poll. rewrite IH.
    change (count _ [_]) with 1%nat. lia.
  - unfold poll. induction n as [|n IH]; [by constructor|].
    rewrite replicate_S_end, foldl_snoc. unfold tick at 1.
    fold (poll (Some alice) (requestDb "pending", no_fault)
            (replicate n (requestDb "approved", no_fault))).
    rewrite poll_polling. simpl fst; simpl snd.
    rewrite runCheck_approved. apply Forall_app. split; [exact IH|].
    by repeat constructor.
Qed.

(** The function alone, on reading the status ["rejected"]: it shows the
    failure toast once, calls [navigate("/")] once, and stores as
    rejection reason the [access_reason] (under [|| null]) of the audit
    record of the user with the greatest [accessed_at]; no reason when
    that query fails. *)
Lemma checkStatus_rejected (u : User) (db : Backend) (net : Faults)
    (st : State) (r0 r : UserRequest) :
  call (count_fault net) (requestOf db (id u)) = Data (Some r0) →
  call (status_fault net) (statusOf db (id u)) = Data r →
  status r = "rejected" →
  let st' := (checkStatus (Some u) db net st).1 in
  let fx := (checkStatus (Some u) db net st).2 in
  fx = [Toast error "Your application has been rejected." None; Navigate "/"] ∧
  count (isToast error) fx = 1%nat ∧
  count isNavigate fx = 1%nat ∧
  hasRequest st' = true ∧
  applicationStatus st' = Some "rejected" ∧
  match call (reason_fault net) (latestAccess db (id u)) with
  | Data a =>
      rejectionReason st' = or_null (access_reason a) ∧
      a ∈ admin_access db ∧ accessed_user_id a = id u ∧
      ∀ a', a' ∈ admin_access db → accessed_user_id a' = id u →
            accessed_at a' ≤ accessed_at a
  | Failure _ => rejectionReason st' = None
  end.
Proof.
  intros Hcount Hstatus Hrej. unfold checkStatus.
  rewrite Hcount, Hstatus. simpl. rewrite Hrej. simpl.
  split_and!; try done.
  destruct (reason_fault net) as [e|]; simpl; [done|].
  destruct (latestAccess db (id u)) as [a|e] eqn:Hlatest; simpl; [|done].
  apply latest_is_greatest in Hlatest as [Hin Hmax].
  apply list_elem_of_filter in Hin as [Hu Hin].
  split_and!; try done.
  intros a' Ha' Hu'. apply Hmax. by apply list_elem_of_filter.
Qed.

(** The effect of lines 151-156 is apart from the check: once the state
    reads rejected it asks for the same navigation on its own. *)
Lemma redirectEffect_rejected (st : State) :
  hasRequest st = true → applicationStatus st = Some "rejected" →
  redirectEffect st = [Navigate "/"].
Proof. unfold redirectEffect. by intros -> ->. Qed.

(** C8, as the code has it: a failing request query leaves the state as
    it was; a failing status query comes after [setHasRequest(true)],
    which stays, while the status and the reason are kept.  Either way
    the error is logged and nothing is shown to the user.  The error of
    the audit query is not read: nothing is logged, the reason becomes
    [null], and the rejection toast and the redirect follow. *)
Theorem checkStatus_failure (u : User) (db : Backend) (net : Faults) (st : State) :
  (∀ e, call (count_fault net) (requestOf db (id u)) = Failure e →
        checkStatus (Some u) db net st = (st, caught)) ∧
  (∀ r e, call (count_fault net) (requestOf db (id u)) = Data (Some r) →
          call (status_fault net) (statusOf db (id u)) = Failure e →
          checkStatus (Some u) db net st = (setHasRequest true st, caught)) ∧
  (∀ r0 r e, call (count_fault net) (requestOf db (id u)) = Data (Some r0) →
             call (status_fault net) (statusOf db (id u)) = Data r →
             status r = "rejected" →
             call (reason_fault net) (latestAccess db (id u)) = Failure e →
             checkStatus (Some u) db net st
               = (setRejectionReason None
                    (setApplicationStatus (Some "rejected") (setHasRequest true st)),
                  [Toast error "Your application has been rejected." None; Navigate "/"])).
Proof.
  split_and!.
  - intros e He. unfold checkStatus. by rewrite He.
  - intros r e Hr He. unfold checkStatus. by rewrite Hr, He.
  - intros r0 r e Hr0 Hr Hrej He. unfold checkStatus.
    rewrite Hr0, Hr, He. simpl. by rewrite Hrej.
Qed.

(** Witness of C8: the status query of Alice's check is lost. *)
Lemma checkStatus_failure_witness :
  checkStatus (Some alice) (requestDb "pending") statusLost
    {| hasRequest := true; applicationStatus := Some "pending"; rejectionReason := None |}
  = ({| hasRequest := true; applicationStatus := Some "pending"; rejectionReason := None |},
     caught).
Proof.
  exact (proj1 (proj2 (checkStatus_failure alice (requestDb "pending") statusLost _))
           {| request_id := "r1"; user_id := "u1"; status := "pending"; requested_at := 10 |}
           "Failed to fetch" eq_refl eq_refl).
Defined.

(** Counterexample to C8: the first check of the page meets a lost
    status query, and [hasRequest] has changed. *)
Lemma failed_check_changes_state :
  checkStatus (Some alice) (requestDb "pending") statusLost initial
    = ({| hasRequest := true; applicationStatus := None; rejectionReason := None |}, caught)
  ∧ hasRequest initial = false.
Proof. done. Qed.

End StatusCheck.

(** ** The message list *)
Section MessageList.
Import Messages Scenario.

(** What a fetch without fault leaves in [messages]. *)
Lemma fetchWith_messages (ascending : bool) (u : User) (db : Backend) (st : State) :
  messages (fetchWith ascending (Some u) db None st).1
    = order created_at ascending (filter (involves (id u)) (messages_table db)).
Proof. done. Qed.

(** Counterexample to C2: the fetch of the component lists the later
    message first, and the fetch of the effect lists two messages of one
    millisecond with the greater id first. *)
Lemma displayed_order_fails :
  ¬ displayedInOrder (messages (fetchMessages (Some alice) chatDb None initial).1) ∧
  ¬ displayedInOrder (messages (fetchMessages_effect (Some alice) tieDb None initial).1).
Proof.
  split; intros Hord.
  - specialize (Hord 1%nat 0%nat (text "m1" "u1" "a0" "hello" 1000)
                  (text "m2" "a0" "u1" "welcome" 2000) eq_refl eq_refl).
    assert (1 < 0)%nat; [|lia]. apply Hord. left. simpl. lia.
  - specialize (Hord 1%nat 0%nat (text "a" "a0" "u1" "second" 1000)
                  (text "b" "u1" "a0" "first" 1000) eq_refl eq_refl).
    assert (1 < 0)%nat; [|lia]. apply Hord. right. by split.
Qed.

(** C2, as the code has it: the list left by the fetch of the first
    effect holds the messages of the user in the store, an earlier
    message before a later one. *)
Theorem fetch_effect_by_time (u : User) (db : Backend) (st : State) :
  let shown := messages (fetchMessages_effect (Some u) db None st).1 in
  shown ≡ₚ filter (involves (id u)) (messages_table db) ∧
  displayedByTime shown.
Proof.
  intros shown. subst shown. unfold fetchMessages_effect.
  rewrite fetchWith_messages. split.
  - apply order_perm.
  - intros i j m1 m2 Hi Hj Hlt.
    destruct (decide (i < j)%nat) as [|Hge]; [done|exfalso].
    destruct (decide (i = j)) as [->|Hne].
    + rewrite Hi in Hj. injection Hj as ->. lia.
    + assert (asc created_at m2 m1) as Hle.
      { eapply (sorted_lookup (asc created_at)); eauto using order_asc_sorted. lia. }
      unfold asc in Hle. lia.
Qed.

(** The fetch of the component (lines 121-136) asks for the opposite
    order: a later message comes before an earlier one. *)
Lemma fetch_component_latest_first (u : User) (db : Backend) (st : State)
    (i j : nat) (m1 m2 : Message) :
  let shown := messages (fetchMessages (Some u) db None st).1 in
  shown !! i = Some m1 → shown !! j = Some m2 →
  created_at m1 < created_at m2 → (j < i)%nat.
Proof.
  intros shown. subst shown. unfold fetchMessages. rewrite fetchWith_messages.
  intros Hi Hj Hlt.
  destruct (decide (j < i)%nat) as [|Hge]; [done|exfalso].
  destruct (decide (i = j)) as [->|Hne].
  - rewrite Hi in Hj. injection Hj as ->. lia.
  - assert (desc created_at m1 m2) as Hle.
    { eapply (sorted_lookup (desc created_at)); eauto using order_desc_sorted. lia. }
    unfold desc in Hle. lia.
Qed.

(** *** Replies out of order *)

Lemma foldl_deliverFetch (st : State) (replies : list (nat * Response (option (list Message)))) :
  messages (foldl deliverFetch st replies) = default (messages st) (lastFetched replies).
Proof.
  unfold lastFetched.
  induction replies as [|[n reply] replies IH] using rev_ind; [done|].
  rewrite foldl_snoc, omap_app. simpl.
  destruct reply as [d|e]; simpl.
  - by rewrite last_snoc.
  - by rewrite app_nil_r.
Qed.

Lemma foldl_deliverStatus (st : Dashboard.State)
    (replies : list (nat * Response UserRequest)) :
  Dashboard.applicationStatus (foldl Dashboard.deliverStatus st replies)
    = default (Dashboard.applicationStatus st) (Dashboard.lastStatus replies).
Proof.
  unfold Dashboard.lastStatus.
  induction replies as [|[n reply] replies IH] using rev_ind; [done|].
  rewrite foldl_snoc, omap_app. simpl.
  destruct reply as [d|e]; simpl.
  - rewrite last_snoc. unfold Dashboard.deliverStatus, Dashboard.afterStatus. simpl.
    by repeat destruct (decide _).
  - by rewrite app_nil_r.
Qed.

(** C4, as the code has it: replies are applied as they arrive, and the
    number of the call plays no part.  After any sequence of replies the
    message list is the one of the last fetch reply that is not an error,
    and the application status the one of the last status reply that is
    not an error. *)
Theorem replies_applied_on_arrival
    (st : State) (fetches : list (nat * Response (option (list Message))))
    (dst : Dashboard.State) (statuses : list (nat * Response UserRequest)) :
  messages (foldl deliverFetch st fetches)
    = default (messages st) (lastFetched fetches) ∧
  Dashboard.applicationStatus (foldl Dashboard.deliverStatus dst statuses)
    = default (Dashboard.applicationStatus dst) (Dashboard.lastStatus statuses).
Proof. split; [apply foldl_deliverFetch|apply foldl_deliverStatus]. Qed.

(** Counterexample to C4: call 0 reads the store before the second
    message and the pending status, call 1 reads them after; the replies
    of call 1 arrive first.  The older replies are applied last. *)
Lemma stale_reply_overwrites :
  let m1 := text "m1" "u1" "a0" "hello" 1000 in
  let m2 := text "m2" "a0" "u1" "welcome" 2000 in
  let request s := {| request_id := "r1"; user_id := "u1"; status := s; requested_at := 10 |} in
  messages (foldl deliverFetch initial [(1%nat, Data (Some [m1; m2]))])
    = [m1; m2] ∧
  messages (foldl deliverFetch initial
              [(1%nat, Data (Some [m1; m2])); (0%nat, Data (Some [m1]))])
    = [m1] ∧
  Dashboard.applicationStatus
    (foldl Dashboard.deliverStatus Dashboard.initial
       [(1%nat, Data (request "approved")); (0%nat, Data (request "pending"))])
    = Some "pending".
Proof. done. Qed.

End MessageList.

(** ** The counterpart of an administrator *)
Section Counterpart.
Import Messages Scenario.

Lemma filter_none {A} (P : A → Prop) `{∀ x, Decision (P x)} (l : list A) :
  Forall (λ x, ¬ P x) l → filter P l = [].
Proof.
  induction 1 as [|x l Hx _ IH]; [done|].
  by rewrite filter_cons_False.
Qed.

Lemma firstRequest_first (db : Backend) (pre post : list UserRequest) (r : UserRequest) :
  user_requests db = (pre ++ r :: post)%list →
  Forall (λ r', ¬ qualifying r') pre → qualifying r →
  firstRequest db = Data r.
Proof.
  intros Hrows Hpre Hr. unfold firstRequest, limit.
  rewrite Hrows, filter_app, filter_none, filter_cons_True by done.
  by destruct (filter qualifying post).
Qed.

Lemma getUserById_id (db : Backend) (uid : string) (x : User) :
  getUserById db uid = Data x → id x = uid ∧ x ∈ users db.
Proof.
  unfold getUserById. destruct (List.find _ _) as [y|] eqn:Hfind; [|done].
  intros [= ->]. apply List.find_some in Hfind as [Hin Hid].
  split; [by apply bool_decide_eq_true in Hid|by apply list_elem_of_In].
Qed.

(** C5, as the code has it: for an administrator the counterpart is the
    user of the first row of [user_requests], in the order of the table,
    whose status is pending or approved; with no such row the lookup
    fails and no counterpart is set. *)
Theorem loadAdminUser_first_row (u : User) (db : Backend) (st : State) :
  isAdminUser u = true →
  (∀ pre r post x,
     user_requests db = (pre ++ r :: post)%list →
     Forall (λ r', ¬ qualifying r') pre → qualifying r →
     getUserById db (user_id r) = Data x →
     loadAdminUser (Some u) db None None st
       = (setIsLoading false (setAdminUser (Some x) st), []) ∧
     id x = user_id r) ∧
  (Forall (λ r', ¬ qualifying r') (user_requests db) →
     loadAdminUser (Some u) db None None st = (setIsLoading false st, loadFailed)).
Proof.
  intros Hadmin. split.
  - intros pre r post x Hrows Hpre Hr Hx. split.
    + unfold loadAdminUser. rewrite Hadmin.
      rewrite (firstRequest_first db pre post r) by done. simpl. by rewrite Hx.
    + by apply getUserById_id in Hx as [? _].
  - intros Hnone. unfold loadAdminUser, firstRequest. rewrite Hadmin.
    by rewrite filter_none.
Qed.

(** Witness of C5: with Alice's and Bob's requests under review, the
    administrator is given Alice, the first row. *)
Lemma loadAdminUser_first_row_witness :
  loadAdminUser (Some root) reviewDb None None initial
    = (setIsLoading false (setAdminUser (Some alice) initial), []).
Proof.
  refine (proj1 (proj1 (loadAdminUser_first_row root reviewDb initial eq_refl)
            [{| request_id := "r0"; user_id := "u3"; status := "rejected"; requested_at := 5 |}]
            {| request_id := "r1"; user_id := "u1"; status := "pending"; requested_at := 10 |}
            [{| request_id := "r2"; user_id := "u2"; status := "approved"; requested_at := 20 |}]
            alice eq_refl _ _ eq_refl)).
  - repeat constructor. intros [H|H]; discriminate H.
  - left. reflexivity.
Defined.

(** Counterexample to C5: Bob's request qualifies and is the most
    recently created, and the administrator is given Alice. *)
Lemma counterpart_is_not_latest :
  let bobs := {| request_id := "r2"; user_id := "u2"; status := "approved"; requested_at := 20 |} in
  bobs ∈ user_requests reviewDb ∧ qualifying bobs ∧
  Forall (λ r, qualifying r → requested_at r ≤ requested_at bobs) (user_requests reviewDb) ∧
  adminUser (loadAdminUser (Some root) reviewDb None None initial).1 = Some alice ∧
  id alice ≠ user_id bobs.
Proof.
  split_and!.
  - set_solver.
  - by right.
  - repeat constructor; simpl; lia.
  - done.
  - done.
Qed.

End Counterpart.

(** ** Sending *)
Section Sending.
Import Messages Scenario.
Variable adminId : string.

(** The upload succeeds when there is no file or no fault. *)
Lemma uploadSelected_ok (u : User) (out : Outside) (st : State) :
  selectedFile st = None ∨ upload_fault out = None →
  ∃ url, (uploadSelected u out st).1 = Data url.
Proof.
  unfold uploadSelected. intros [Hfile|Hfault].
  - rewrite Hfile. by eexists.
  - destruct (selectedFile st); rewrite ?Hfault; by eexists.
Qed.

(** C3, as the code has it: the send adds no entry of its own to the
    list.  When the upload or the insert fails the error is logged and
    the page and the store are as before; when both succeed the store
    holds one more row, the draft is cleared, the modal is closed, and
    the list is the one of the fetch that follows. *)
Theorem handleSendMessage_outcomes (u : User) (out : Outside) (db : Backend)
    (st : State) :
  let res := handleSendMessage adminId (Some u) out db st in
  (is_Some (insert_fault out) ∨ (is_Some (selectedFile st) ∧ is_Some (upload_fault out)) →
     res.1.1 = st ∧ res.1.2 = db ∧ ∃ fx, res.2 = (fx ++ sendFailed)%list) ∧
  (insert_fault out = None → selectedFile st = None ∨ upload_fault out = None →
     (∃ url, res.1.2 = inserted (assigned_id out) (outgoing adminId u out st url) db) ∧
     newMessage res.1.1 = "" ∧ selectedFile res.1.1 = None ∧
     isModalOpen res.1.1 = false ∧
     messages res.1.1 = messages (fetchMessages (Some u) res.1.2 (fetch_fault out) st).1).
Proof.
  intros res. subst res. unfold handleSendMessage. split.
  - intros Hfail.
    destruct (uploadSelected u out st) as [[url|e] fx1] eqn:Hup.
    + destruct (insert_fault out) as [e|] eqn:Hins.
      * split_and!; [done..|]. exists (fx1 ++ [Insert (outgoing adminId u out st url)])%list.
        by rewrite <- app_assoc.
      * exfalso. destruct Hfail as [[? [=]]|[[f Hf] [e He]]].
        unfold uploadSelected in Hup. rewrite Hf, He in Hup. simpl in Hup. congruence.
    + split_and!; [done..|]. by exists fx1.
  - intros Hins Hup. destruct (uploadSelected_ok u out st Hup) as [url Hurl].
    destruct (uploadSelected u out st) as [uploaded fx1]. simpl in Hurl. subst uploaded.
    rewrite Hins. unfold fetchMessages, fetchWith.
    destruct (call _ _) as [d|e] eqn:Hcall; simpl; rewrite ?Hcall;
      split_and!; try done; by exists url.
Qed.

Lemma inserts_app (l k : list Effect) : inserts (l ++ k) = (inserts l ++ inserts k)%list.
Proof. apply omap_app. Qed.

Lemma inserts_uploadSelected (u : User) (out : Outside) (st : State) :
  inserts (uploadSelected u out st).2 = [].
Proof. unfold uploadSelected. by destruct (selectedFile st). Qed.

Lemma inserts_fetchWith (ascending : bool) (user : option User) (db : Backend)
    (fault : option string) (st : State) :
  inserts (fetchWith ascending user db fault st).2 = [].
Proof. unfold fetchWith. destruct user; [|done]. by destruct (call _ _). Qed.

(** The rows a send hands to the store: one, unless the upload fails. *)
Lemma inserts_handleSendMessage (u : User) (out : Outside) (db : Backend) (st : State) :
  inserts (handleSendMessage adminId (Some u) out db st).2
    = match (uploadSelected u out st).1 with
      | Data url => [outgoing adminId u out st url]
      | Failure _ => []
      end.
Proof.
  unfold handleSendMessage.
  pose proof (inserts_uploadSelected u out st) as Hup.
  destruct (uploadSelected u out st) as [[url|e] fx1]; cbn [fst snd] in *.
  - destruct (insert_fault out); cbn [fst snd].
    + by rewrite !inserts_app, Hup.
    + pose proof (inserts_fetchWith false (Some u)
                    (inserted (assigned_id out) (outgoing adminId u out st url) db)
                    (fetch_fault out)
                    (setIsModalOpen false (setSelectedFile None (setNewMessage "" st))))
        as Hfetch.
      unfold fetchMessages.
      destruct (fetchWith _ _ _ _ _) as [st2 fx2]; cbn [fst snd] in *.
      by rewrite !inserts_app, Hup, Hfetch.
  - by rewrite inserts_app, Hup.
Qed.

(** C9: the row handed to the store, and the row the store then holds,
    name [adminId] as receiver, whoever sends and whoever the resolved
    counterpart is. *)
Theorem send_receiver_is_adminId (u : User) (out : Outside) (db : Backend)
    (st : State) :
  let res := handleSendMessage adminId (Some u) out db st in
  Forall (λ row, new_receiver_id row = adminId) (inserts res.2) ∧
  (selectedFile st = None ∨ upload_fault out = None →
     ∃ row, inserts res.2 = [row] ∧ new_sender_id row = id u) ∧
  (insert_fault out = None → selectedFile st = None ∨ upload_fault out = None →
     ∃ m, messages_table res.1.2 = (messages_table db ++ [m])%list ∧
          receiver_id m = adminId ∧ sender_id m = id u).
Proof.
  intros res. subst res. rewrite inserts_handleSendMessage. split_and!.
  - destruct (uploadSelected u out st).1; by repeat constructor.
  - intros Hup. destruct (uploadSelected_ok u out st Hup) as [url ->]. by eexists.
  - intros Hins Hup. destruct (uploadSelected_ok u out st Hup) as [url Hurl].
    unfold handleSendMessage.
    destruct (uploadSelected u out st) as [uploaded fx1]. simpl in Hurl. subst uploaded.
    rewrite Hins. destruct (fetchMessages _ _ _ _) as [st2 fx2]. simpl.
    by eexists.
Qed.

End Sending.

(** Witness of C3: Alice's insert is refused; her draft stays as it was
    and nothing enters the list. *)
Lemma handleSendMessage_outcomes_witness :
  (Messages.handleSendMessage "a0" (Some Scenario.alice) Scenario.refused Scenario.chatDb
     (Scenario.draft "hello" (Some Scenario.root))).1
    = (Scenario.draft "hello" (Some Scenario.root), Scenario.chatDb).
Proof.
  destruct (proj1 (handleSendMessage_outcomes "a0" Scenario.alice Scenario.refused
                     Scenario.chatDb (Scenario.draft "hello" (Some Scenario.root))))
    as (Hst & Hdb & _).
  - left. by eexists.
  - destruct (Messages.handleSendMessage _ _ _ _ _) as [[st' db'] fx]. simpl in *. by subst.
Defined.

(** Witness of C9: the administrator writes to Alice, the resolved
    counterpart, and the stored row is addressed to [adminId] all the
    same. *)
Lemma send_receiver_is_adminId_witness :
  let res := Messages.handleSendMessage "a0" (Some Scenario.root) Scenario.accepted
               Scenario.chatDb (Scenario.draft "hello" (Some Scenario.alice)) in
  ∃ m, messages_table res.1.2 = (messages_table Scenario.chatDb ++ [m])%list ∧
       receiver_id m = "a0" ∧ sender_id m = "a0".
Proof.
  exact (proj2 (proj2 (send_receiver_is_adminId "a0" Scenario.root Scenario.accepted
           Scenario.chatDb (Scenario.draft "hello" (Some Scenario.alice))))
         eq_refl (or_introl eq_refl)).
Defined.

(** Counterexample to C3: after the refused insert the list holds no
    entry for the message, failed or otherwise. *)
Lemma failed_send_keeps_no_entry :
  let res := Messages.handleSendMessage "a0" (Some Scenario.alice) Scenario.refused
               Scenario.chatDb (Scenario.draft "hello" (Some Scenario.root)) in
  Messages.messages res.1.1 = [] ∧
  Messages.inserts res.2 <> [].
Proof. done. Qed.

(** ** The subscription *)
Section Subscription.
Import Messages.

(** C10: without a user the subscription effect of the page stops at the
    filter string with a [TypeError] and subscribes to nothing; with a
    user either subscription effect completes: it subscribes first, and
    what its fetch does comes after. *)
Theorem subscription_needs_user (db : Backend) (fault : option string) (st : State) :
  messagesEffect None db fault st = (st, [], Throw "TypeError") ∧
  ∀ u, ∃ sub,
    sub = Subscribe "messages"
            ("sender_id=eq." ++ id u ++ " OR receiver_id=eq." ++ id u)%string ∧
    messagesEffect (Some u) db fault st
      = ((fetchMessages_effect (Some u) db fault st).1,
         sub :: (fetchMessages_effect (Some u) db fault st).2, Normal ()) ∧
    refreshEffect (Some u) db fault st
      = ((fetchMessages (Some u) db fault st).1,
         sub :: (fetchMessages (Some u) db fault st).2, Normal ()).
Proof.
  split; [done|]. intros u. eexists. split; [reflexivity|].
  unfold messagesEffect, refreshEffect, effectBody, fetchMessages_effect, fetchMessages.
  split; by destruct (fetchWith _ _ _ _ _).
Qed.

End Subscription.

(** * Further properties *)

(** ** More on unique toasts *)
Section ToastBursts.
Import Dashboard DashboardPage.

Lemma tickets_live_elapse (t : Z) (w : Toaster) :
  tickets_live w → tickets_live (elapse t w).
Proof.
  intros (Hok & Hheld & Hdue). split_and!.
  - by apply tickets_ok_elapse.
  - intros k [Hk Hnot]%elem_of_expire. simpl.
    apply Hheld, list_elem_of_fmap in Hk as [[d k'] [-> Hk]]. simpl in *.
    apply list_elem_of_fmap. exists (d, k'). split; [done|].
    apply list_elem_of_filter. split; [|done]. simpl. intros Hearly.
    apply Hnot, list_elem_of_fmap. exists (d, k'). split; [done|].
    by apply list_elem_of_filter.
  - simpl. rewrite Forall_forall in Hdue. apply Forall_forall.
    intros tm [_ Htm]%list_elem_of_filter. specialize (Hdue tm Htm). lia.
Qed.

Lemma tickets_live_showUniqueToast (message : string) (type : ToastType)
    (id : option string) (w : Toaster) :
  tickets_live w → tickets_live (showUniqueToast message type id w).
Proof.
  intros (Hok & Hheld & Hdue). split_and!.
  - by apply tickets_ok_showUniqueToast.
  - unfold showUniqueToast. destruct (decide _); [done|]. simpl.
    intros k Hk. rewrite fmap_app. apply elem_of_app.
    apply elem_of_union in Hk as [->%elem_of_singleton|Hk]; [right|left; by apply Hheld].
    simpl. by apply list_elem_of_singleton.
  - unfold showUniqueToast. destruct (decide _); [done|]. simpl.
    apply Forall_app. split; [done|]. by repeat constructor.
Qed.

Lemma reachable_tickets_live (w : Toaster) : reachable w → tickets_live w.
Proof.
  induction 1 as [|t message type id w _ IH].
  - split_and!; [apply tickets_ok_start|set_solver|constructor].
  - by apply tickets_live_showUniqueToast, tickets_live_elapse.
Qed.

(** X1: no key is held for ever.  In a state reached from the start by
    calls of [showUniqueToast], every held key has its callback pending
    and due within five seconds, so once five seconds pass without a call
    the set is empty and no callback is left. *)
Theorem shownToasts_drain (w : Toaster) :
  reachable w →
  (∀ k, k ∈ shownToasts w ↔ ∃ d, (d, k) ∈ timers w ∧ d ≤ now w + cooldown) ∧
  shownToasts (elapse (now w + cooldown) w) = ∅ ∧
  timers (elapse (now w + cooldown) w) = [].
Proof.
  intros (Hok & Hheld & Hdue)%reachable_tickets_live.
  rewrite Forall_forall in Hdue. split_and!.
  - intros k. split.
    + intros [[d k'] [-> Hin]]%Hheld%list_elem_of_fmap. exists d. split; [done|].
      by apply (Hdue (d, k')).
    + intros (d & Hin & _). apply Hok, list_elem_of_fmap. by exists (d, k).
  - simpl. apply set_eq. intros k. rewrite elem_of_expire. split; [|set_solver].
    intros [Hk Hnot]. exfalso. apply Hnot.
    apply Hheld, list_elem_of_fmap in Hk as [[d k'] [-> Hk]].
    apply list_elem_of_fmap. exists (d, k'). split; [done|].
    apply list_elem_of_filter. split; [|done]. by apply (Hdue (d, k')).
  - simpl. clear Hok Hheld. induction (timers w) as [|tm l IH]; [done|].
    rewrite filter_cons_False.
    + apply IH. intros x Hx. apply Hdue. by right.
    + intros Hlate. apply Hlate, Hdue. by left.
Qed.

(** Witness of X1: after one toast at time 7 and five seconds more. *)
Lemma shownToasts_drain_witness :
  shownToasts (elapse (7 + cooldown) (notify_at 7 "Saved" success None start)) = ∅.
Proof.
  exact (proj1 (proj2 (shownToasts_drain (notify_at 7 "Saved" success None start)
                         (reachable_notify 7 "Saved" success None start reachable_start)))).
Defined.

(** The state during the cooldown of [key]: its callback is pending. *)
Lemma burst_step (key : string) (due : Z) (c : Call) (w : Toaster) :
  call_time c < due →
  tickets_ok w → (due, key) ∈ timers w →
  let w' := notify_at (call_time c) (call_message c) (call_type c) (call_id c) w in
  tickets_ok w' ∧ (due, key) ∈ timers w' ∧
  count (hasKey key) (shown w') = count (hasKey key) (shown w).
Proof.
  intros Hearly Hok Hin w'. subst w'. unfold notify_at.
  assert (tickets_ok (elapse (call_time c) w)) as Hok' by by apply tickets_ok_elapse.
  assert ((due, key) ∈ timers (elapse (call_time c) w)) as Hin'.
  { simpl. apply list_elem_of_filter. split; [simpl; lia|done]. }
  assert (key ∈ shownToasts (elapse (call_time c) w)) as Hheld.
  { apply Hok', list_elem_of_fmap. by exists (due, key). }
  split; [by apply tickets_ok_showUniqueToast|].
  unfold showUniqueToast.
  destruct (decide _) as [|Hnew]; [done|]. simpl. split.
  - apply elem_of_app. by left.
  - rewrite count_app. unfold count at 2. rewrite (filter_singleton_False _ _ []); [simpl; lia|].
    simpl. rewrite bool_decide_eq_true. intros Heq. apply Hnew. by rewrite Heq.
Qed.

(** The first call with a key that is not held shows its toast and
    leaves the callback pending. *)
Lemma first_call_shows (w : Toaster) (message : string) (type : ToastType)
    (id : option string) (t : Z) :
  let key := or_else id message in
  let w1 := notify_at t message type id w in
  tickets_ok w → key ∉ shownToasts w → now w ≤ t →
  shown w1 = (shown w ++ [Toast type message (Some key)])%list ∧
  tickets_ok w1 ∧ (t + cooldown, key) ∈ timers w1.
Proof.
  intros key w1 Hok Hkey Hnow. subst w1. unfold notify_at.
  split_and!; [| by apply tickets_ok_showUniqueToast, tickets_ok_elapse |].
  all: unfold showUniqueToast; fold key.
  all: destruct (decide _) as [Hheld|_];
    [simpl in Hheld; apply elem_of_expire in Hheld as [? _]; done|].
  - done.
  - simpl. apply elem_of_app. right. apply list_elem_of_singleton. do 2 f_equal. lia.
Qed.

(** A call with a key whose callback is pending and not yet due shows
    nothing. *)
Lemma held_call_silent (key : string) (due : Z) (w : Toaster) (message : string)
    (type : ToastType) (id : option string) (t : Z) :
  or_else id message = key → t < due →
  tickets_ok w → (due, key) ∈ timers w →
  shown (notify_at t message type id w) = shown w.
Proof.
  intros Hid Hearly Hok Hin. unfold notify_at, showUniqueToast. rewrite Hid.
  destruct (decide _) as [|Hnew]; [done|]. exfalso. apply Hnew.
  apply (tickets_ok_elapse t w Hok), list_elem_of_fmap. exists (due, key).
  split; [done|]. simpl. apply list_elem_of_filter. split; [simpl; lia|done].
Qed.

(** X2: once a toast with a key is shown, no call before the five seconds
    are over shows that key again, however many calls there are and
    whatever other keys they carry. *)
Theorem burst_shows_one (w : Toaster) (message : string) (type : ToastType)
    (id : option string) (t : Z) (cs : list Call) :
  let key := or_else id message in
  let w1 := notify_at t message type id w in
  tickets_ok w → key ∉ shownToasts w → now w ≤ t →
  Forall (λ c, call_time c < t + cooldown) cs →
  count (hasKey key) (shown (calls cs w1)) = S (count (hasKey key) (shown w)).
Proof.
  intros key w1 Hok Hkey Hnow Hcs.
  assert (tickets_ok w1 ∧ (t + cooldown, key) ∈ timers w1 ∧
          count (hasKey key) (shown w1) = S (count (hasKey key) (shown w)))
    as (Hok1 & Hin1 & Hcount1).
  { subst w1. unfold notify_at.
    split; [by apply tickets_ok_showUniqueToast, tickets_ok_elapse|].
    unfold showUniqueToast. fold key.
    destruct (decide _) as [Hheld|_].
    { simpl in Hheld. apply elem_of_expire in Hheld as [? _]. done. }
    simpl. split.
    - apply elem_of_app. right. apply list_elem_of_singleton. do 2 f_equal. lia.
    - rewrite count_app. unfold count at 2.
      rewrite (filter_singleton_True _ _ []); [simpl; lia|].
      simpl. by rewrite bool_decide_eq_true. }
  clear Hok Hkey Hnow. rewrite <- Hcount1. clear Hcount1.
  unfold calls. revert Hok1 Hin1. generalize w1. clear w1.
  induction Hcs as [|c cs Hc _ IH]; intros w1 Hok1 Hin1; [done|].
  simpl. destruct (burst_step key (t + cooldown) c w1 Hc Hok1 Hin1) as (Hok2 & Hin2 & <-).
  by apply IH.
Qed.

(** Witness of X2: three more calls in the five seconds, two of them with
    the same key. *)
Lemma burst_shows_one_witness :
  count (hasKey "signout-error")
    (shown (calls [{| call_time := 100; call_message := "Failed to sign out";
                      call_type := error; call_id := Some "signout-error" |};
                   {| call_time := 200; call_message := "Saved";
                      call_type := success; call_id := None |};
                   {| call_time := 4999; call_message := "Failed to sign out";
                      call_type := error; call_id := Some "signout-error" |}]
              (notify_at 0 "Failed to sign out" error (Some "signout-error") start)))
  = 1%nat.
Proof.
  refine (burst_shows_one start "Failed to sign out" error (Some "signout-error") 0 _
            tickets_ok_start _ _ _).
  - simpl. set_solver.
  - simpl. lia.
  - repeat constructor; simpl; unfold cooldown; lia.
Defined.

(** Calls with other keys leave a key that is not held not held. *)
Lemma calls_other_keys (key : string) (cs : list Call) (w : Toaster) :
  Forall (λ c, call_key c ≠ key) cs →
  key ∉ shownToasts w → key ∉ shownToasts (calls cs w).
Proof.
  unfold calls. intros Hcs. revert w.
  induction Hcs as [|c cs Hc _ IH]; intros w Hkey; [done|].
  simpl. apply IH. unfold notify_at, showUniqueToast.
  assert (key ∉ shownToasts (elapse (call_time c) w)) as Hfree.
  { simpl. rewrite elem_of_expire. tauto. }
  destruct (decide _); [done|]. simpl. unfold call_key in Hc. set_solver.
Qed.

(** X3: toasts with different keys do not suppress each other.  A key
    that is not held is shown by its next call, whatever calls with
    other keys came in between. *)
Theorem other_keys_do_not_suppress (w : Toaster) (cs : list Call) (c : Call) :
  call_key c ∉ shownToasts w →
  Forall (λ c', call_key c' ≠ call_key c) cs →
  shown (calls (cs ++ [c]) w)
    = (shown (calls cs w) ++ [Toast (call_type c) (call_message c) (Some (call_key c))])%list.
Proof.
  intros Hkey Hcs. unfold calls at 1. rewrite foldl_snoc. fold (calls cs w).
  pose proof (calls_other_keys _ cs w Hcs Hkey) as Hfree.
  unfold notify_at, showUniqueToast. fold (call_key c).
  destruct (decide _) as [Hheld|_]; [|done].
  simpl in Hheld. apply elem_of_expire in Hheld as [? _]. done.
Qed.

(** Witness of X3: a sign-out error right after another toast. *)
Lemma other_keys_do_not_suppress_witness :
  shown (calls [{| call_time := 0; call_message := "Saved";
                   call_type := success; call_id := None |};
                {| call_time := 1; call_message := "Failed to sign out";
                   call_type := error; call_id := Some "signout-error" |}] start)
  = [Toast success "Saved" (Some "Saved");
     Toast error "Failed to sign out" (Some "signout-error")].
Proof.
  refine (other_keys_do_not_suppress start
            [{| call_time := 0; call_message := "Saved";
                call_type := success; call_id := None |}]
            {| call_time := 1; call_message := "Failed to sign out";
               call_type := error; call_id := Some "signout-error" |} _ _).
  - simpl. set_solver.
  - repeat constructor. discriminate.
Defined.

End ToastBursts.

(** ** More on the application-status check *)
Section StatusCheckMore.
Import Dashboard DashboardPage Scenario.

(** The leaves of a case analysis of [checkStatus]: the log is a list
    of known effects. *)
Ltac known_log :=
  unfold caught; rewrite ?Exists_cons, ?Exists_nil; simpl;
  split_and!; try (vm_compute; lia); try naive_solver.

(** X4: a check navigates away, and shows the failure toast, exactly when
    the status it reads is "rejected"; it shows the success toast exactly
    when that status is "approved"; for any other status, and when it
    reads none, it shows nothing. *)
Theorem checkStatus_effects (user : option User) (db : Backend) (net : Faults)
    (st : State) :
  let fx := (checkStatus user db net st).2 in
  (Exists (λ e, isNavigate e = true) fx ↔ statusRead user db net = Some "rejected") ∧
  (Exists (λ e, isToast error e = true) fx ↔ statusRead user db net = Some "rejected") ∧
  (Exists (λ e, isToast success e = true) fx ↔ statusRead user db net = Some "approved") ∧
  (count isNavigate fx ≤ 1)%nat ∧
  (count (isToast error) fx + count (isToast success) fx ≤ 1)%nat.
Proof.
  intros fx. subst fx. destruct user as [u|]; [|known_log].
  unfold checkStatus, statusRead, afterCount, afterStatus, afterReason.
  destruct (call (count_fault net) (requestOf db (id u))) as [[r0|]|e]; simpl;
    [|known_log..].
  destruct (call (status_fault net) (statusOf db (id u))) as [r|e]; simpl;
    [|known_log].
  destruct (decide (status r = "rejected")) as [Hs|Hs]; simpl.
  { rewrite Hs. known_log. }
  destruct (decide (status r = "approved")) as [Hs'|Hs']; simpl.
  { rewrite Hs'. known_log. }
  known_log.
Qed.

(** X5: a second check against the same backend and faults leaves the
    state of the first as it is and repeats the effects of the first:
    the state is reconciled once, the toasts and the navigation are not
    remembered. *)
Theorem checkStatus_again (user : option User) (db : Backend) (net : Faults)
    (st : State) :
  checkStatus user db net (checkStatus user db net st).1 = checkStatus user db net st.
Proof.
  destruct user as [u|]; [|done].
  unfold checkStatus, afterCount, afterStatus, afterReason.
  destruct (call (count_fault net) (requestOf db (id u))) as [[r0|]|e]; simpl; try done.
  destruct (call (status_fault net) (statusOf db (id u))) as [r|e]; simpl; try done.
  destruct (decide (status r = "rejected")) as [Hs|Hs]; simpl; [done|].
  by destruct (decide (status r = "approved")).
Qed.

(** X6: for a user without a row in [user_requests] the check sets
    [hasRequest] to false, keeps the status and the reason it had, and
    shows nothing. *)
Theorem checkStatus_no_request (u : User) (db : Backend) (net : Faults) (st : State) :
  count_fault net = None →
  Forall (λ r, user_id r ≠ id u) (user_requests db) →
  checkStatus (Some u) db net st = (setHasRequest false st, []).
Proof.
  intros Hnet Hnone. unfold checkStatus, requestOf.
  rewrite Hnet, (filter_none _ _ Hnone). done.
Qed.

(** Witness of X6: Bob has no request in Alice's backend. *)
Lemma checkStatus_no_request_witness :
  checkStatus (Some bob) (requestDb "pending") no_fault
    {| hasRequest := true; applicationStatus := Some "pending"; rejectionReason := None |}
  = ({| hasRequest := false; applicationStatus := Some "pending"; rejectionReason := None |}, []).
Proof.
  refine (checkStatus_no_request bob (requestDb "pending") no_fault _ eq_refl _).
  repeat constructor. discriminate.
Defined.

(** X7: a user with two rows or more in [user_requests] is an error of
    the first query: the check logs it and changes nothing, and reads no
    status. *)
Theorem checkStatus_duplicate_requests (u : User) (db : Backend) (net : Faults)
    (st : State) :
  (2 ≤ length (filter (λ r, user_id r = id u) (user_requests db)))%nat →
  checkStatus (Some u) db net st = (st, caught) ∧
  statusRead (Some u) db net = None.
Proof.
  intros Htwo. unfold checkStatus, statusRead, requestOf.
  destruct (filter _ (user_requests db)) as [|r1 [|r2 l]]; simpl in Htwo; try lia.
  by destruct (count_fault net).
Qed.

(** Witness of X7: Alice's request is stored twice. *)
Lemma checkStatus_duplicate_requests_witness :
  checkStatus (Some alice)
    {| user_requests := user_requests (requestDb "pending") ++ user_requests (requestDb "approved");
       admin_access := []; messages_table := []; users := [alice] |}
    no_fault initial
  = (initial, caught).
Proof.
  refine (proj1 (checkStatus_duplicate_requests alice _ no_fault initial _)).
  simpl. lia.
Defined.

(** X8: what a check writes.  The status changes only to the status
    read; without a status read it stays.  The reason changes only when
    the status read is "rejected": a request that moves on from
    "rejected" keeps its old reason in the state. *)
Theorem checkStatus_writes (user : option User) (db : Backend) (net : Faults)
    (st : State) :
  let st' := (checkStatus user db net st).1 in
  match statusRead user db net with
  | Some s =>
      hasRequest st' = true ∧ applicationStatus st' = or_null (Some s) ∧
      (s ≠ "rejected" → rejectionReason st' = rejectionReason st)
  | None =>
      applicationStatus st' = applicationStatus st ∧
      rejectionReason st' = rejectionReason st
  end.
Proof.
  destruct user as [u|]; [|done].
  unfold checkStatus, statusRead, afterCount, afterStatus, afterReason.
  destruct (call (count_fault net) (requestOf db (id u))) as [[r0|]|e]; simpl; try done.
  destruct (call (status_fault net) (statusOf db (id u))) as [r|e]; simpl; try done.
  destruct (decide (status r = "rejected")) as [Hs|Hs]; simpl; [done|].
  by destruct (decide (status r = "approved")).
Qed.

(** Witness of X8: Alice's request is approved after a rejection. *)
Lemma checkStatus_writes_witness :
  rejectionReason
    (checkStatus (Some alice) (requestDb "approved") no_fault
       {| hasRequest := true; applicationStatus := Some "rejected";
          rejectionReason := Some "incomplete profile" |}).1
  = Some "incomplete profile".
Proof.
  pose proof (checkStatus_writes (Some alice) (requestDb "approved") no_fault
                {| hasRequest := true; applicationStatus := Some "rejected";
                   rejectionReason := Some "incomplete profile" |}) as H.
  simpl in H. destruct H as (_ & _ & H). apply H. discriminate.
Defined.

Lemma runCheck_effects_prefix (user : option User) (db : Backend) (net : Faults)
    (tr : Tracker) :
  effects tr `prefix_of` effects (runCheck user db net tr).
Proof. unfold runCheck. destruct (checkStatus _ _ _ _). simpl. by apply prefix_app_r. Qed.

Lemma ticks_effects_prefix (user : option User) (remotes : list (Backend * Faults))
    (tr : Tracker) :
  effects tr `prefix_of` effects (foldl (tick user) tr remotes).
Proof.
  revert tr. induction remotes as [|r remotes IH]; intros tr; [done|].
  simpl. etrans; [|apply IH]. unfold tick.
  destruct (polling tr); [apply runCheck_effects_prefix|done].
Qed.

(** X9: the interval of the page.  Whatever the checks find, polling is
    still on after any number of ticks, and the log of a longer run
    extends the log of a shorter one; only the cleanup stops the
    interval, and after it no tick does anything. *)
Theorem polling_until_unmount (user : option User) (first : Backend * Faults)
    (remotes more : list (Backend * Faults)) :
  polling (poll user first remotes) = true ∧
  effects (poll user first remotes) `prefix_of` effects (poll user first (remotes ++ more)) ∧
  foldl (tick user) (unmount (poll user first remotes)) more
    = unmount (poll user first remotes).
Proof.
  split_and!.
  - apply poll_polling.
  - unfold poll. rewrite foldl_app. apply ticks_effects_prefix.
  - generalize (poll user first remotes). intros tr.
    induction more as [|r more IH]; [done|]. exact IH.
Qed.

Lemma view_of_status (isLoading showOnboarding : bool) (st : State) (s : string) :
  hasRequest st = true → applicationStatus st = or_null (Some s) →
  (s = "pending" → view isLoading showOnboarding st = PendingPage) ∧
  (s = "rejected" → view isLoading showOnboarding st = RejectedPage) ∧
  (s = "approved" → view isLoading showOnboarding st = Main).
Proof.
  intros Hreq Hst. unfold view, noStatus. rewrite Hreq, Hst.
  split_and!; intros ->; simpl; by rewrite andb_false_r.
Qed.

(** X10: what the page renders after a check.  A status read as
    "pending" gives the pending page, "rejected" the rejection page and
    "approved" the dashboard, whatever [isLoading] and [showOnboarding]
    are.  For a user without a request, from the initial state, the page
    is the dashboard only when [isLoading] is off or the onboarding is
    shown, and the spinner otherwise. *)
Theorem view_after_check (user : option User) (db : Backend) (net : Faults)
    (st : State) (isLoading showOnboarding : bool) :
  let page := view isLoading showOnboarding (checkStatus user db net st).1 in
  (statusRead user db net = Some "pending" → page = PendingPage) ∧
  (statusRead user db net = Some "rejected" → page = RejectedPage) ∧
  (statusRead user db net = Some "approved" → page = Main) ∧
  (∀ u, user = Some u → st = initial → count_fault net = None →
        Forall (λ r, user_id r ≠ id u) (user_requests db) →
        page = if isLoading && negb showOnboarding then Spinner else Main).
Proof.
  intros page. subst page.
  pose proof (checkStatus_writes user db net st) as Hw. cbv zeta in Hw.
  split_and!.
  1-3: intros Hs; rewrite Hs in Hw; destruct Hw as (Hreq & Hst & _);
       by apply (view_of_status _ _ _ _ Hreq Hst).
  intros u -> -> Hnet Hnone. rewrite checkStatus_no_request by done.
  unfold view, noStatus. simpl. by destruct isLoading, showOnboarding.
Qed.

(** Witness of X10: Alice's pending request, and Bob without one. *)
Lemma view_after_check_witness :
  view true false (checkStatus (Some alice) (requestDb "pending") no_fault initial).1
    = PendingPage ∧
  view true false (checkStatus (Some bob) (requestDb "pending") no_fault initial).1
    = Spinner.
Proof.
  split.
  - exact (proj1 (view_after_check (Some alice) (requestDb "pending") no_fault initial
                    true false) eq_refl).
  - refine (proj2 (proj2 (proj2 (view_after_check (Some bob) (requestDb "pending")
                                   no_fault initial true false)))
              bob eq_refl eq_refl eq_refl _).
    repeat constructor. discriminate.
Defined.

(** X11: signing out.  Whether [signOut] returns or throws, [isLoading]
    is off afterwards; a sign-out that returns shows nothing; and two
    that throw within five seconds show one toast and log two errors. *)
Theorem handleSignOut_outcomes (sh : Shell) (t1 t2 : Z) (e1 e2 : string) :
  tickets_ok (toaster sh) → "signout-error" ∉ shownToasts (toaster sh) →
  now (toaster sh) ≤ t1 → t1 ≤ t2 → t2 < t1 + cooldown →
  let failed := handleSignOut (Throw e2) t2 (handleSignOut (Throw e1) t1 sh) in
  isLoading failed = false ∧
  shown (toaster failed)
    = (shown (toaster sh) ++
       [Toast error "Failed to sign out" (Some "signout-error")])%list ∧
  console failed
    = (console sh ++ [ConsoleError "Error signing out:";
                      ConsoleError "Error signing out:"])%list ∧
  handleSignOut (Normal ()) t1 sh
    = {| isLoading := false; toaster := toaster sh; console := console sh |}.
Proof.
  intros Hok Hkey H1 H2 H3 failed. subst failed. unfold handleSignOut. simpl.
  split_and!; [done| |by rewrite <- app_assoc|done].
  destruct (first_call_shows (toaster sh) "Failed to sign out" error
              (Some "signout-error") t1 Hok Hkey H1) as (Hshown & Hok1 & Hin1).
  etrans; [|exact Hshown].
  apply (held_call_silent "signout-error" (t1 + cooldown)); [done|lia|done..].
Qed.

(** Witness of X11: two failed sign-outs, three seconds apart, on the
    page as it opens. *)
Lemma handleSignOut_outcomes_witness :
  let failed := handleSignOut (Throw "network") 3000 (handleSignOut (Throw "network") 0 opened) in
  isLoading failed = false ∧
  shown (toaster failed) = [Toast error "Failed to sign out" (Some "signout-error")].
Proof.
  destruct (handleSignOut_outcomes opened 0 3000 "network" "network") as (H1 & H2 & _).
  - apply tickets_ok_start.
  - simpl. set_solver.
  - simpl. lia.
  - lia.
  - unfold cooldown. lia.
  - split; [exact H1|exact H2].
Defined.

End StatusCheckMore.

(** ** More on the message list *)
Section MessageListMore.
Import Messages MessagesPage Scenario.

(** X12: a fetch that succeeds, in either order, shows the messages of
    the store that the user sent or received, each as often as the store
    holds it, and no message between other users. *)
Theorem fetch_shows_own_messages (ascending : bool) (u : User) (db : Backend)
    (st : State) :
  let shown := messages (fetchWith ascending (Some u) db None st).1 in
  shown ≡ₚ filter (involves (id u)) (messages_table db) ∧
  (∀ m, m ∈ shown ↔
        m ∈ messages_table db ∧ (sender_id m = id u ∨ receiver_id m = id u)) ∧
  length shown = length (filter (involves (id u)) (messages_table db)).
Proof.
  intros shown. subst shown. rewrite fetchWith_messages.
  pose proof (order_perm created_at ascending
                (filter (involves (id u)) (messages_table db))) as Hp.
  split_and!; [done| |by rewrite Hp].
  intros m. rewrite Hp, list_elem_of_filter. unfold involves. tauto.
Qed.

Lemma same_key_same_row {A} (col : A → Z) (l : list A) (x y : A) :
  NoDup (col <$> l) → x ∈ l → y ∈ l → col x = col y → x = y.
Proof.
  induction l as [|a l IH]; simpl; intros Hnd Hx Hy Heq.
  - by apply elem_of_nil in Hx.
  - apply NoDup_cons in Hnd as [Hfresh Hnd].
    apply elem_of_cons in Hx as [->|Hx]; apply elem_of_cons in Hy as [->|Hy].
    + done.
    + destruct Hfresh. rewrite Heq. by apply list_elem_of_fmap_2.
    + destruct Hfresh. rewrite <- Heq. by apply list_elem_of_fmap_2.
    + by apply IH.
Qed.

(** X13: when no two messages of the user carry the same timestamp, the
    list of the component's fetch is the list of the effect's fetch
    reversed: the page shows the newest message first after one and last
    after the other. *)
Theorem fetches_mirror (u : User) (db : Backend) (st st' : State) :
  NoDup (created_at <$> filter (involves (id u)) (messages_table db)) →
  messages (fetchMessages (Some u) db None st).1
    = reverse (messages (fetchMessages_effect (Some u) db None st').1).
Proof.
  intros Hnd. unfold fetchMessages, fetchMessages_effect.
  rewrite !fetchWith_messages.
  set (rows := filter (involves (id u)) (messages_table db)) in *.
  apply (StronglySorted_unique_strong (desc created_at)).
  - intros x1 x2 Hx1 Hx2 H12 H21. unfold desc in *.
    rewrite order_perm in Hx1. rewrite reverse_Permutation, order_perm in Hx2.
    apply (same_key_same_row created_at rows); [done..|lia].
  - apply order_desc_sorted.
  - apply Sorted_StronglySorted; [apply _|].
    apply (Sorted_reverse (asc created_at)), StronglySorted_Sorted, order_asc_sorted.
  - by rewrite reverse_Permutation, !order_perm.
Qed.

(** Witness of X13: the two messages of Alice's conversation. *)
Lemma fetches_mirror_witness :
  messages (fetchMessages (Some alice) chatDb None initial).1
    = reverse (messages (fetchMessages_effect (Some alice) chatDb None initial).1).
Proof.
  apply (fetches_mirror alice chatDb initial initial).
  simpl. repeat constructor; set_solver.
Defined.

End MessageListMore.

(** ** More on sending *)
Section SendingMore.
Import Messages MessagesPage Scenario.
Variable adminId : string.

Lemma string_app_nil (b : string) : ("" ++ b = b)%string.
Proof. reflexivity. Qed.

Lemma string_app_cons (x : ascii) (a b : string) :
  (String x a ++ b = String x (a ++ b))%string.
Proof. reflexivity. Qed.

Lemma string_app_assoc (a b c : string) : ((a ++ b) ++ c = a ++ (b ++ c))%string.
Proof.
  induction a as [|x a IH]; [done|].
  rewrite !string_app_cons. by f_equal.
Qed.

Lemma rev_app_append (a b : string) :
  String.rev_app a b = (String.rev_app a "" ++ b)%string.
Proof.
  revert b. induction a as [|x a IH]; intros b; simpl; [done|].
  rewrite (IH (String x b)), (IH (String x "")).
  by rewrite string_app_assoc, string_app_cons, string_app_nil.
Qed.

Lemma hasChar_rev_app (c : ascii) (a b : string) :
  DashboardPage.hasChar c (String.rev_app a b)
    = DashboardPage.hasChar c a || DashboardPage.hasChar c b.
Proof.
  revert b. induction a as [|x a IH]; intros b; simpl; [done|].
  rewrite IH. simpl. by destruct (bool_decide (c = x)), (DashboardPage.hasChar c a).
Qed.

Lemma last_segment_aux_no_dot (acc s : string) :
  DashboardPage.hasChar "." acc = false →
  DashboardPage.hasChar "." (last_segment_aux acc s) = false.
Proof.
  revert acc. induction s as [|x s IH]; intros acc Hacc; simpl.
  - unfold String.rev. by rewrite hasChar_rev_app, Hacc.
  - destruct (decide (x = "."%char)) as [->|Hx]; [by apply IH|].
    apply IH. simpl. rewrite Hacc, orb_false_r. apply bool_decide_eq_false. congruence.
Qed.

Lemma last_segment_aux_suffix (acc s : string) :
  ∃ pre, String.rev_app acc s = (pre ++ last_segment_aux acc s)%string.
Proof.
  revert acc. induction s as [|x s IH]; intros acc; simpl.
  - by exists "".
  - destruct (decide (x = "."%char)) as [->|Hx].
    + destruct (IH "") as [pre Hpre]. simpl in Hpre.
      exists (String.rev_app acc "" ++ String "." pre)%string.
      rewrite rev_app_append, string_app_assoc, string_app_cons. by rewrite <- Hpre.
    + apply (IH (String x acc)).
Qed.

(** X14: the extension taken from a file name holds no dot and ends the
    name, and a send with a selected file begins by uploading it to the
    bucket [message-images] under the sender's id, with [Math.random()]
    as name and that extension. *)
Theorem upload_path (u : User) (out : Outside) (db : Backend) (st : State) (f : File) :
  selectedFile st = Some f →
  let ext := last_segment (file_name f) in
  DashboardPage.hasChar "." ext = false ∧
  (∃ pre, file_name f = (pre ++ ext)%string) ∧
  ∃ rest, (handleSendMessage adminId (Some u) out db st).2
          = Upload "message-images" (id u ++ "/" ++ random out ++ "." ++ ext)%string :: rest.
Proof.
  intros Hfile ext. subst ext. split_and!.
  - by apply last_segment_aux_no_dot.
  - apply (last_segment_aux_suffix "").
  - unfold handleSendMessage, uploadSelected. rewrite Hfile.
    destruct (upload_fault out); cbn [call]; [by eexists|].
    destruct (insert_fault out); [by eexists|].
    destruct (fetchMessages _ _ _ _). by eexists.
Qed.

Lemma involves_outgoing (u : User) (out : Outside) (st : State) (url : string) (db : Backend) :
  filter (involves (id u))
    (messages_table (inserted (assigned_id out) (outgoing adminId u out st url) db))
  = (filter (involves (id u)) (messages_table db) ++
     [{| message_id := assigned_id out; sender_id := id u; receiver_id := adminId;
         content := trim (newMessage st); image_url := or_null (Some url);
         created_at := date out |}])%list.
Proof.
  simpl. rewrite filter_app. f_equal.
  rewrite (filter_singleton_True _ _ []); [done|]. by left.
Qed.

(** X15: after a send in which the upload, the insert and the fetch go
    through, the stored message is in the list the page shows, which is
    one longer than the user's part of the store was; when the message
    is dated after all stored ones it is the first of the list. *)
Theorem sent_message_is_shown (u : User) (out : Outside) (db : Backend) (st : State) :
  insert_fault out = None → fetch_fault out = None →
  selectedFile st = None ∨ upload_fault out = None →
  let res := handleSendMessage adminId (Some u) out db st in
  ∃ m, message_id m = assigned_id out ∧ sender_id m = id u ∧
       content m = trim (newMessage st) ∧ created_at m = date out ∧
       m ∈ messages res.1.1 ∧
       length (messages res.1.1)
         = S (length (filter (involves (id u)) (messages_table db))) ∧
       (Forall (λ m', created_at m' < date out) (messages_table db) →
        head (messages res.1.1) = Some m).
Proof.
  intros Hins Hfetch Hup res. subst res.
  destruct (uploadSelected_ok u out st Hup) as [url Hurl].
  unfold handleSendMessage.
  destruct (uploadSelected u out st) as [uploaded fx1]. simpl in Hurl. subst uploaded.
  rewrite Hins. unfold fetchMessages, fetchWith, listMessages. rewrite Hfetch.
  cbn [call afterFetch fst snd messages setMessages default from_option].
  unfold Datatypes.id. rewrite involves_outgoing.
  set (rows := filter (involves (id u)) (messages_table db)).
  set (m := {| message_id := assigned_id out; sender_id := id u |}).
  pose proof (order_perm created_at false (rows ++ [m])) as Hp.
  pose proof (order_desc_sorted created_at (rows ++ [m])) as Hs.
  exists m. split_and!; try done.
  - rewrite Hp. apply elem_of_app. right. by apply list_elem_of_singleton.
  - rewrite (Permutation_length Hp), length_app. simpl. lia.
  - intros Hold.
    assert (∀ m', m' ∈ rows → created_at m' < date out) as Hrows.
    { intros m' [_ Hm']%list_elem_of_filter. rewrite Forall_forall in Hold. by apply Hold. }
    destruct (order created_at false (rows ++ [m])) as [|h l].
    { apply Permutation_nil in Hp. by destruct rows. }
    simpl. f_equal.
    assert (h ∈ (rows ++ [m])%list) as Hh by (rewrite <- Hp; by left).
    apply elem_of_app in Hh as [Hh|Hh%list_elem_of_singleton]; [exfalso|done].
    assert (m ∈ h :: l) as Hm.
    { rewrite Hp. apply elem_of_app. right. by apply list_elem_of_singleton. }
    apply elem_of_cons in Hm as [Heq|Hm].
    + specialize (Hrows _ Hh). rewrite <- Heq in Hrows. simpl in Hrows. lia.
    + apply StronglySorted_inv in Hs as [_ Hall]. rewrite Forall_forall in Hall.
      specialize (Hall m Hm). unfold desc in Hall. specialize (Hrows _ Hh).
      simpl in Hall. lia.
Qed.

(** X16: the Send button.  It is enabled once a file is chosen, whatever
    the text; after Cancel, and after a send that went through, it is
    disabled; after a send that failed it is as it was, so the same
    draft can be sent again. *)
Theorem send_button (u : User) (out : Outside) (db : Backend) (st : State)
    (f : File) (fs : list File) :
  canSend (handleFileSelect (Some (f :: fs)) st) = true ∧
  canSend (cancel st) = false ∧
  (insert_fault out = None → selectedFile st = None ∨ upload_fault out = None →
     canSend (handleSendMessage adminId (Some u) out db st).1.1 = false) ∧
  (is_Some (insert_fault out) →
     canSend (handleSendMessage adminId (Some u) out db st).1.1 = canSend st).
Proof.
  split_and!.
  - unfold canSend. simpl. by rewrite andb_false_r.
  - done.
  - intros Hins Hup. destruct (uploadSelected_ok u out st Hup) as [url Hurl].
    unfold handleSendMessage.
    destruct (uploadSelected u out st) as [uploaded fx1]. simpl in Hurl. subst uploaded.
    rewrite Hins. unfold fetchMessages, fetchWith.
    by destruct (call _ _).
  - intros [e He]. unfold handleSendMessage.
    destruct (uploadSelected u out st) as [[url|e'] fx1]; [|done].
    by rewrite He.
Qed.

End SendingMore.

(** Witness of X14: Alice attaches [holiday.photo.png]. *)
Lemma upload_path_witness :
  ∃ rest,
    (Messages.handleSendMessage "a0" (Some Scenario.alice) Scenario.accepted Scenario.chatDb
       (Messages.setSelectedFile (Some {| Messages.file_name := "holiday.photo.png" |})
          (Scenario.draft "look" (Some Scenario.root)))).2
    = Messages.Upload "message-images" "u1/0.42.png" :: rest.
Proof.
  exact (proj2 (proj2 (upload_path "a0" Scenario.alice Scenario.accepted Scenario.chatDb
           (Messages.setSelectedFile (Some {| Messages.file_name := "holiday.photo.png" |})
              (Scenario.draft "look" (Some Scenario.root)))
           {| Messages.file_name := "holiday.photo.png" |} eq_refl))).
Defined.

(** Witness of X15: Alice's "hello" at time 3000 heads her list of
    three. *)
Lemma sent_message_is_shown_witness :
  let res := Messages.handleSendMessage "a0" (Some Scenario.alice) Scenario.accepted
               Scenario.chatDb (Scenario.draft "hello" (Some Scenario.root)) in
  ∃ m, message_id m = "m3" ∧ m ∈ Messages.messages res.1.1 ∧
       length (Messages.messages res.1.1) = 3%nat ∧
       head (Messages.messages res.1.1) = Some m.
Proof.
  destruct (sent_message_is_shown "a0" Scenario.alice Scenario.accepted Scenario.chatDb
              (Scenario.draft "hello" (Some Scenario.root)) eq_refl eq_refl
              (or_introl eq_refl))
    as (m & Hid & _ & _ & _ & Hin & Hlen & Hhead).
  exists m. split_and!; [exact Hid|exact Hin|exact Hlen|].
  apply Hhead. repeat constructor; simpl; lia.
Defined.

(** Witness of X16: Alice's refused send leaves the button enabled. *)
Lemma send_button_witness :
  MessagesPage.canSend
    (Messages.handleSendMessage "a0" (Some Scenario.alice) Scenario.refused Scenario.chatDb
       (Scenario.draft "hello" (Some Scenario.root))).1.1 = true.
Proof.
  refine (eq_trans (proj2 (proj2 (proj2 (send_button "a0" Scenario.alice Scenario.refused
            Scenario.chatDb (Scenario.draft "hello" (Some Scenario.root))
            {| Messages.file_name := "a.png" |} []))) _) _).
  - by eexists.
  - reflexivity.
Defined.

(** ** More on the counterpart *)
Section CounterpartMore.
Import Messages MessagesPage Scenario.

Lemma find_first {A} (f : A → bool) (pre post : list A) (a : A) :
  Forall (λ x, f x = false) pre → f a = true →
  List.find f (pre ++ a :: post) = Some a.
Proof.
  intros Hpre Ha. induction Hpre as [|x pre Hx _ IH]; simpl.
  - by rewrite Ha.
  - by rewrite Hx.
Qed.

(** X17: for a user who is not an administrator the counterpart is the
    first user of the directory, in its order, whose role is "admin";
    when the directory holds none, the counterpart stays as it was and no
    error is logged. *)
Theorem loadAdminUser_first_admin (u : User) (db : Backend) (st : State) :
  isAdminUser u = false →
  (∀ pre a post,
     users db = (pre ++ a :: post)%list →
     Forall (λ x, isAdminUser x = false) pre → isAdminUser a = true →
     loadAdminUser (Some u) db None None st
       = (setIsLoading false (setAdminUser (Some a) st), [])) ∧
  (Forall (λ x, isAdminUser x = false) (users db) →
     loadAdminUser (Some u) db None None st = (setIsLoading false st, [])).
Proof.
  intros Hu. split.
  - intros pre a post Husers Hpre Ha. unfold loadAdminUser, listUsers.
    rewrite Hu, Husers. simpl. by rewrite find_first.
  - intros Hnone. unfold loadAdminUser, listUsers. rewrite Hu. simpl.
    destruct (List.find isAdminUser (users db)) as [a|] eqn:Hfind; [|done].
    apply List.find_some in Hfind as [Hin Ha]. rewrite Forall_forall in Hnone.
    apply list_elem_of_In, Hnone in Hin. congruence.
Qed.

(** Witness of X17: Alice is given Root, the third user of the
    directory. *)
Lemma loadAdminUser_first_admin_witness :
  loadAdminUser (Some alice) reviewDb None None initial
    = (setIsLoading false (setAdminUser (Some root) initial), []).
Proof.
  refine (proj1 (loadAdminUser_first_admin alice reviewDb initial eq_refl)
            [alice; bob] root [] eq_refl _ eq_refl).
  by repeat constructor.
Defined.

Lemma firstRequest_qualifies (db : Backend) (r : UserRequest) :
  firstRequest db = Data r → r ∈ user_requests db ∧ qualifying r.
Proof.
  unfold firstRequest, limit. intros Hr.
  assert (r ∈ filter qualifying (user_requests db)) as Hin.
  { destruct (filter qualifying (user_requests db)) as [|r' l]; [done|].
    simpl in Hr. destruct l; simpl in Hr; injection Hr as ->; by left. }
  apply list_elem_of_filter in Hin. tauto.
Qed.

(** X18: whom the lookup can set.  Whatever the faults, the counterpart
    either stays as it was or becomes a user of the directory: for an
    administrator one who has a request that is pending or approved, for
    anyone else one whose role is "admin". *)
Theorem counterpart_is_valid (u : User) (db : Backend) (fault1 fault2 : option string)
    (st : State) :
  let st' := (loadAdminUser (Some u) db fault1 fault2 st).1 in
  adminUser st' = adminUser st ∨
  ∃ x, adminUser st' = Some x ∧ x ∈ users db ∧
       if isAdminUser u
       then ∃ r, r ∈ user_requests db ∧ qualifying r ∧ user_id r = id x
       else isAdminUser x = true.
Proof.
  unfold loadAdminUser. destruct (isAdminUser u) eqn:Hu.
  - destruct fault1 as [e|]; simpl; [by left|].
    destruct (firstRequest db) as [r|e] eqn:Hr; [|by left].
    apply firstRequest_qualifies in Hr as [Hin Hq].
    destruct fault2 as [e|]; simpl; [by left|].
    destruct (getUserById db (user_id r)) as [x|e] eqn:Hx; [|by left].
    apply getUserById_id in Hx as [Hid Hx]. right. exists x. simpl.
    split_and!; [done..|]. by exists r.
  - destruct fault1 as [e|]; simpl; [by left|].
    destruct (List.find isAdminUser (users db)) as [a|] eqn:Hfind; [|by left].
    apply List.find_some in Hfind as [Hin Ha]. right. exists a. simpl.
    split_and!; [done|by apply list_elem_of_In|done].
Qed.

(** X19: the lookup settles the page.  For a present user, whatever
    fails, [isLoading] is off afterwards, so the page is past its
    spinner; the list, the draft and the modal are as before; the log is
    empty or the one error; and an error never changes the counterpart. *)
Theorem loadAdminUser_settles (u : User) (db : Backend) (fault1 fault2 : option string)
    (st : State) :
  let res := loadAdminUser (Some u) db fault1 fault2 st in
  isLoading res.1 = false ∧
  view (Some u) res.1 ≠ Spinner ∧
  messages res.1 = messages st ∧ newMessage res.1 = newMessage st ∧
  selectedFile res.1 = selectedFile st ∧ isModalOpen res.1 = isModalOpen st ∧
  (res.2 = [] ∨ res.2 = loadFailed) ∧
  (res.2 = loadFailed → adminUser res.1 = adminUser st).
Proof.
  unfold loadAdminUser, view.
  destruct (isAdminUser u).
  - destruct (call fault1 (firstRequest db)) as [r|e]; simpl;
      [destruct (call fault2 (getUserById db (user_id r))) as [x|e]; simpl|].
    all: split_and!; try done; try (by destruct (adminUser st)); auto.
  - destruct (call fault1 (listUsers db)) as [l|e]; simpl;
      [destruct (List.find isAdminUser l) as [a|]; simpl|].
    all: split_and!; try done; try (by destruct (adminUser st)); auto.
Qed.

(** Witness of X19: the directory call of the administrator's lookup
    fails; the spinner ends and the counterpart stays unset. *)
Lemma loadAdminUser_settles_witness :
  let res := loadAdminUser (Some root) reviewDb None (Some "Failed to fetch") initial in
  isLoading res.1 = false ∧ adminUser res.1 = None.
Proof.
  destruct (loadAdminUser_settles root reviewDb None (Some "Failed to fetch") initial)
    as (Hload & _ & _ & _ & _ & _ & _ & Hkept).
  split; [exact Hload|exact (Hkept eq_refl)].
Defined.

End CounterpartMore.

(** ** The guarded route and the greeting *)
Section RouteAndGreeting.
Import Dashboard DashboardPage Route.

(** X20: the guard.  The children are rendered exactly when loading is
    over and a user is present, and then either subscription effect of
    the Messages page, run with that user, completes; the toast is shown
    exactly when the guard redirects, and it redirects to [/login] with
    the location it was asked for; while loading it shows and redirects
    nothing. *)
Theorem ProtectedRoute_guards (loading : bool) (user : option User) (location : string)
    (db : Backend) (fault : option string) (st : Messages.State) :
  let out := ProtectedRoute loading user location in
  (out.1 = Children ↔ loading = false ∧ is_Some user) ∧
  (out.1 = Children →
     (Messages.messagesEffect user db fault st).2 = Normal () ∧
     (Messages.refreshEffect user db fault st).2 = Normal ()) ∧
  (out.2 ≠ [] ↔ out.1 = NavigateTo "/login" location true) ∧
  (out.1 = NavigateTo "/login" location true ↔ loading = false ∧ user = None) ∧
  (loading = true → out = (Loading, [])).
Proof.
  assert (∀ u, (Messages.messagesEffect (Some u) db fault st).2 = Normal () ∧
               (Messages.refreshEffect (Some u) db fault st).2 = Normal ()) as Hfx.
  { intros u. unfold Messages.messagesEffect, Messages.refreshEffect, Messages.effectBody.
    split; by destruct (Messages.fetchWith _ _ _ _ _). }
  unfold ProtectedRoute. destruct loading, user as [u|]; simpl.
  all: split_and!; try done; try (intros _; apply Hfx).
  all: try (split; [done|]); try by intros [? ?].
  all: try by intros [_ [? ?]].
  all: try by (split; [|done]; eauto).
Qed.

Lemma firstWord_no_space (s : string) : hasChar " " (firstWord s) = false.
Proof.
  induction s as [|a s IH]; simpl; [done|].
  destruct (decide (a = " "%char)) as [->|Ha]; simpl; [done|].
  rewrite IH, orb_false_r. apply bool_decide_eq_false. congruence.
Qed.

Lemma firstWord_whole (s : string) : hasChar " " s = false → firstWord s = s.
Proof.
  induction s as [|a s IH]; simpl; [done|].
  intros [Ha Hs]%orb_false_elim. apply bool_decide_eq_false in Ha.
  destruct (decide (a = " "%char)) as [->|_]; [done|]. by rewrite IH.
Qed.

(** X21: the greeting.  The name greeted is never empty and holds no
    space; it is the full name when that is not empty and has no space,
    and "User" when there is no user or the full name is empty or begins
    with a space. *)
Theorem greetingName_spec (user : option User) :
  greetingName user ≠ "" ∧
  hasChar " " (greetingName user) = false ∧
  (∀ u, user = Some u → full_name u ≠ "" → hasChar " " (full_name u) = false →
        greetingName user = full_name u) ∧
  (user = None → greetingName user = "User") ∧
  (∀ u rest, user = Some u → full_name u = "" ∨ full_name u = String " " rest →
             greetingName user = "User").
Proof.
  unfold greetingName, or_else, or_null. split_and!.
  - destruct user as [u|]; simpl; [|done].
    by destruct (decide (firstWord (full_name u) = "")).
  - destruct user as [u|]; simpl; [|done].
    destruct (decide (firstWord (full_name u) = "")); [done|apply firstWord_no_space].
  - intros u -> Hne Hsp. simpl. rewrite firstWord_whole by done.
    by destruct (decide (full_name u = "")).
  - by intros ->.
  - intros u rest -> [Hn|Hn]; simpl; by rewrite Hn.
Qed.

End RouteAndGreeting.

(** Witness of X20: a signed-in visitor reaches the page, a visitor
    without a session is sent to the login. *)
Lemma ProtectedRoute_guards_witness :
  (Route.ProtectedRoute false (Some Scenario.alice) "/messages").1 = Route.Children ∧
  Route.ProtectedRoute false None "/messages"
    = (Route.NavigateTo "/login" "/messages" true,
       [Dashboard.Toast Dashboard.error "Access denied. Please sign in to continue." None]).
Proof.
  split.
  - apply (proj1 (ProtectedRoute_guards false (Some Scenario.alice) "/messages"
                    Scenario.chatDb None Messages.initial)).
    split; [reflexivity|by eexists].
  - reflexivity.
Defined.

(** Witness of X21: Alice, and a user whose name begins with a space. *)
Lemma greetingName_spec_witness :
  DashboardPage.greetingName (Some Scenario.alice) = "Alice" ∧
  DashboardPage.greetingName
    (Some {| id := "u9"; email := "x@example.org"; role := None; full_name := " Zed" |})
    = "User".
Proof.
  split.
  - apply (proj1 (proj2 (proj2 (greetingName_spec (Some Scenario.alice)))) Scenario.alice);
      [reflexivity|discriminate|reflexivity].
  - exact (proj2 (proj2 (proj2 (proj2 (greetingName_spec
             (Some {| id := "u9"; email := "x@example.org"; role := None;
                      full_name := " Zed" |})))))
           _ "Zed" eq_refl (or_intror eq_refl)).
Defined.

(** ** The rejected request on the page *)
Section RejectedOnPage.
Import Dashboard DashboardPage Scenario.

(** The page's run of the check leaves the state the function leaves. *)
Lemma checkStatusOnPage_state (user : option User) (db : Backend) (net : Faults)
    (st : State) :
  (checkStatusOnPage user db net st).1 = (checkStatus user db net st).1.
Proof.
  unfold checkStatusOnPage, checkStatus. destruct user as [u|]; [|done].
  destruct (afterCount _ st) as [[st1 fx1] more1]. destruct more1; [|done].
  destruct (afterStatus _ st1) as [[st2 fx2] more2]. destruct more2; [|done].
  by destruct (afterReason _ st2).
Qed.

(** What the redirect effect adds while a check reads "rejected": one
    navigation, unless the state read rejected already. *)
Lemma redirects_on_rejected (st : State) :
  let st1 := setHasRequest true st in
  let st2 := setApplicationStatus (Some "rejected") st1 in
  (redirectOnChange st st1 ++ redirectOnChange st1 st2)%list
    = if readsRejected st then [] else [Navigate "/"].
Proof.
  destruct st as [has status reason].
  unfold redirectOnChange, redirectEffect, readsRejected. simpl.
  destruct has; repeat case_bool_decide; simpl; naive_solver.
Qed.

(** C6, as the code has it: a check that reads the status ["rejected"]
    shows the failure toast once, without an id, stores as rejection
    reason the [access_reason] (under [|| null]) of the audit record of
    the user with the greatest [accessed_at] (none when that query
    fails), and calls [navigate("/")] once.  Before that, the effect of
    lines 151-156 has called [navigate("/")] as well, unless the state
    read rejected already: two navigations the first time, and the toast
    and one navigation again on every later check that reads
    "rejected". *)
Theorem checkStatusOnPage_rejected (u : User) (db : Backend) (net : Faults)
    (st : State) (r0 r : UserRequest) :
  call (count_fault net) (requestOf db (id u)) = Data (Some r0) →
  call (status_fault net) (statusOf db (id u)) = Data r →
  status r = "rejected" →
  let st' := (checkStatusOnPage (Some u) db net st).1 in
  let fx := (checkStatusOnPage (Some u) db net st).2 in
  fx = ((if readsRejected st then [] else [Navigate "/"]) ++
        [Toast error "Your application has been rejected." None; Navigate "/"])%list ∧
  count (isToast error) fx = 1%nat ∧
  count isNavigate fx = (if readsRejected st then 1 else 2)%nat ∧
  hasRequest st' = true ∧
  applicationStatus st' = Some "rejected" ∧
  match call (reason_fault net) (latestAccess db (id u)) with
  | Data a =>
      rejectionReason st' = or_null (access_reason a) ∧
      a ∈ admin_access db ∧ accessed_user_id a = id u ∧
      ∀ a', a' ∈ admin_access db → accessed_user_id a' = id u →
            accessed_at a' ≤ accessed_at a
  | Failure _ => rejectionReason st' = None
  end.
Proof.
  intros Hcount Hstatus Hrej st' fx.
  assert (fx = ((if readsRejected st then [] else [Navigate "/"]) ++
                [Toast error "Your application has been rejected." None; Navigate "/"])%list)
    as Hfx.
  { subst fx. unfold checkStatusOnPage. rewrite Hcount, Hstatus.
    unfold afterCount, afterStatus, afterReason. simpl. rewrite Hrej. simpl.
    by rewrite <- (redirects_on_rejected st), <- app_assoc. }
  destruct (checkStatus_rejected u db net st r0 r Hcount Hstatus Hrej)
    as (_ & _ & _ & Hhas & Happ & Hreason).
  subst st'. rewrite checkStatusOnPage_state.
  split_and!; [done| | |done..].
  - rewrite Hfx. by destruct (readsRejected st).
  - rewrite Hfx. by destruct (readsRejected st).
Qed.

(** Witness of C6: Alice's request is found rejected by the first check
    of the page; her latest audit record reads "incomplete profile". *)
Lemma checkStatusOnPage_rejected_witness :
  let out := checkStatusOnPage (Some alice) (requestDb "rejected") no_fault initial in
  out.2 = [Navigate "/";
           Toast error "Your application has been rejected." None; Navigate "/"] ∧
  rejectionReason out.1 = Some "incomplete profile".
Proof.
  destruct (checkStatusOnPage_rejected alice (requestDb "rejected") no_fault initial
              {| request_id := "r1"; user_id := "u1"; status := "rejected"; requested_at := 10 |}
              {| request_id := "r1"; user_id := "u1"; status := "rejected"; requested_at := 10 |}
              eq_refl eq_refl eq_refl) as (Hfx & _ & _ & _ & _ & Hreason).
  split; [exact Hfx|reflexivity].
Defined.

(** Counterexample to C6: the first check that finds Alice's request
    rejected ends with two navigations, one from line 154 and one from
    line 136; and with the interval running, a second check that finds
    it rejected shows the failure toast a second time. *)
Lemma rejected_redirects_twice :
  count isNavigate
    (checkStatusOnPage (Some alice) (requestDb "rejected") no_fault initial).2 = 2%nat ∧
  count (isToast error)
    (effects (poll (Some alice) (requestDb "rejected", no_fault)
                [(requestDb "rejected", no_fault)])) = 2%nat.
Proof. done. Qed.

End RejectedOnPage.

(** ** White space *)

(** [trim] takes off the white space of Unicode as well: a no-break space
    (U+00A0) before, an em space (U+2003), a byte order mark (U+FEFF) and
    a line feed after, and the space inside stays. *)
Lemma trim_unicode_padding :
  Js.trim
    (String "194"%char (String "160"%char " hello world") +:+
     String "226"%char (String "128"%char (String "131"%char
       (String "239"%char (String "187"%char (String "191"%char
         (String "010"%char EmptyString)))))))
  = "hello world".
Proof. reflexivity. Qed.
